(** * Media utilities of the emotion analyzer

    A shallow embedding of [emotion_analyzer/media_utils.py] and the
    properties its specification states about it.

    The Python module is a set of short helpers over numpy image buffers,
    OpenCV drawing and colour conversion, and PIL text rendering.  The
    embedding keeps that split:
    - numpy arrays are records carrying their shape and their uint8 pixel
      rows; slices follow Python's index normalisation;
    - helpers that only read their arguments are functions into [result];
    - helpers that draw in place run in a state-and-exception monad over a
      store of array objects, so that aliasing between the caller's buffer
      and the returned buffer is visible;
    - the text rasteriser, the thick-line rasteriser and the image decoder
      belong to the external libraries and are section variables. *)

From Stdlib Require Import ZArith Lia Floats Uint63.
From stdpp Require Import base list gmap strings pretty.

Local Open Scope Z_scope.

(** ** Exceptions and results *)

Inductive exn : Set :=
  | InvalidImage      (* emotion_analyzer.exceptions.InvalidImage *)
  | ValueError
  | IndexError
  | TypeError
  | KeyError
  | cv2_error         (* cv2.error *)
  | OtherError (tag : nat).

Inductive result (A : Type) : Type :=
  | Ok (a : A)
  | Raise (e : exn).
Arguments Ok {A} a.
Arguments Raise {A} e.

#[global] Instance exn_eq_dec : EqDecision exn.
Proof. solve_decision. Defined.

#[global] Instance result_ret : MRet result := @Ok.
#[global] Instance result_bind : MBind result := λ A B f m,
  match m with
  | Ok a => f a
  | Raise e => Raise e
  end.

(** ** numpy arrays

    An image is a three-dimensional array [height x width x channels] of
    uint8 samples.  The shape is stored next to the rows because numpy keeps
    it for empty arrays too ([np.zeros((0, 5, 3))] has three channels). *)

Record ndarray : Type := NdArray {
  nd_h : nat;
  nd_w : nat;
  nd_c : nat;
  nd_rows : list (list (list Z))
}.

Definition shape (a : ndarray) : nat * nat * nat := (nd_h a, nd_w a, nd_c a).

Definition nd_size (a : ndarray) : nat := (nd_h a * nd_w a * nd_c a)%nat.

Definition wf_row (w c : nat) (r : list (list Z)) : Prop :=
  length r = w ∧ Forall (λ p, length p = c) r.

Definition wf_ndarray (a : ndarray) : Prop :=
  length (nd_rows a) = nd_h a ∧ Forall (wf_row (nd_w a) (nd_c a)) (nd_rows a).

(** [a[y, x, k]] for indices inside the array. *)
Definition nd_get (a : ndarray) (y x k : nat) : option Z :=
  r ← nd_rows a !! y; p ← r !! x; p !! k.

(** *** Python slices

    [l[start:stop]]: a negative index counts from the end, and both bounds
    are clipped to [0, len]. *)

Definition py_clip (n : nat) (k : Z) : nat :=
  Z.to_nat (if k <? 0 then Z.max (k + Z.of_nat n) 0 else Z.min k (Z.of_nat n)).

Definition py_slice_len (n : nat) (start stop : Z) : nat :=
  (py_clip n stop - py_clip n start)%nat.

Definition py_slice {A} (start stop : Z) (l : list A) : list A :=
  take (py_slice_len (length l) start stop) (drop (py_clip (length l) start) l).

(** [a[y1:y2, x1:x2, :]] *)
Definition nd_slice (a : ndarray) (y1 y2 x1 x2 : Z) : ndarray :=
  NdArray (py_slice_len (nd_h a) y1 y2) (py_slice_len (nd_w a) x1 x2) (nd_c a)
          (py_slice x1 x2 <$> py_slice y1 y2 (nd_rows a)).

(** [l[i]] on a Python list, for the literal indices the module uses. *)
Definition py_getitem (l : list Z) (i : nat) : result Z :=
  match l !! i with
  | Some v => Ok v
  | None => Raise IndexError
  end.

(** ** Validation *)

(** Modelled from the spec: [emotion_analyzer.validators.is_valid_img] is
    imported by the module but its file is not part of the sources.  The
    specification says that it "validates the image is non-empty/non-null". *)
Definition is_valid_img (image : option ndarray) : bool :=
  match image with
  | None => false
  | Some a => negb (nd_size a =? 0)%nat
  end.

(** ** Format conversion *)

(** BGR to RGB on one pixel: the first and third samples trade places; a
    fourth (alpha) sample is dropped, as the destination has three channels. *)
Definition swap_rb (p : list Z) : list Z :=
  match p with
  | b :: g :: r :: _ => [r; g; b]
  | _ => p
  end.

(** [cv2.cvtColor(src, cv2.COLOR_BGR2RGB)].  OpenCV rejects an empty source
    and any channel count other than 3 or 4; the result has 3 channels. *)
Definition cvtColor_BGR2RGB (src : option ndarray) : result ndarray :=
  match src with
  | None => Raise cv2_error
  | Some a =>
      if (nd_size a =? 0)%nat then Raise cv2_error
      else if (nd_c a =? 3)%nat || (nd_c a =? 4)%nat
      then Ok (NdArray (nd_h a) (nd_w a) 3 (fmap (M:=list) swap_rb <$> nd_rows a))
      else Raise cv2_error
  end.

(** [cv2.COLOR_RGB2BGR] and [cv2.COLOR_BGR2RGB] are the same conversion
    code in OpenCV: the inverse conversion is the conversion itself. *)
Definition cvtColor_RGB2BGR : option ndarray → result ndarray := cvtColor_BGR2RGB.

Definition convert_to_rgb (image : option ndarray) : result ndarray :=
  if is_valid_img image then cvtColor_BGR2RGB image else Raise InvalidImage.

(** ** Region extraction *)

Definition get_facial_ROI (image : option ndarray) (bbox : option (list Z))
  : result ndarray :=
  match image, bbox with
  | None, _ => Raise InvalidImage
  | Some _, None => Raise ValueError
  | Some img, Some b =>
      y1 ← py_getitem b 1;
      y2 ← py_getitem b 3;
      x1 ← py_getitem b 0;
      x2 ← py_getitem b 2;
      Ok (nd_slice img y1 y2 x1 x2)
  end.

(** ** Loading *)

(** [try: body except Exception as exc: handler(exc)] *)
Definition try_except {A} (body : result A) (handler : exn → result A) : result A :=
  match body with
  | Ok a => Ok a
  | Raise exc => handler exc
  end.

(** ** The object store

    Arrays are mutable objects; a Python variable holds a reference.  The
    store maps references to the current contents of each array.  A raised
    exception keeps the store as it was at the point of the [raise]. *)

Definition loc := nat.

Definition M (A : Type) : Type := gmap loc ndarray → result A * gmap loc ndarray.

#[global] Instance M_ret : MRet M := λ A a σ, (Ok a, σ).
#[global] Instance M_bind : MBind M := λ A B f m σ,
  match m σ with
  | (Ok a, σ') => f a σ'
  | (Raise e, σ') => (Raise e, σ')
  end.

Definition lift {A} (r : result A) : M A := λ σ, (r, σ).

(** Dereference; [OtherError 0] stands for a reference to no object, which
    no Python program can hold. *)
Definition deref (l : loc) : M ndarray := λ σ,
  match σ !! l with
  | Some a => (Ok a, σ)
  | None => (Raise (OtherError 0), σ)
  end.

Definition assign (l : loc) (a : ndarray) : M unit := λ σ, (Ok (), <[l := a]> σ).

Definition alloc (a : ndarray) : M loc := λ σ,
  let l := fresh (dom σ) in (Ok l, <[l := a]> σ).

(** [img.copy()] *)
Definition np_copy (l : loc) : M loc := a ← deref l; alloc a.

(** [for x in xs: body(x)] *)
Fixpoint for_each {A} (body : A → M unit) (xs : list A) : M unit :=
  match xs with
  | [] => mret ()
  | x :: xs' => _ ← body x; for_each body xs'
  end.

(** [enumerate(xs)] *)
Definition enumerate {A} (xs : list A) : list (nat * A) := imap (λ i x, (i, x)) xs.

(** *** Dictionaries in insertion order *)

Definition dict_keys (d : list (string * Z)) : list string := d.*1.

Fixpoint dict_get (d : list (string * Z)) (k : string) : result Z :=
  match d with
  | [] => Raise KeyError
  | (k', v) :: d' => if String.eqb k' k then Ok v else dict_get d' k
  end.

(** [x1, y1, x2, y2 = bbox] *)
Definition unpack4 (bbox : list Z) : result (Z * Z * Z * Z) :=
  match bbox with
  | [x1; y1; x2; y2] => Ok (x1, y1, x2, y2)
  | _ => Raise ValueError
  end.

(** ** OpenCV drawing *)

(** A colour tuple becomes a four-component scalar padded with zeros; each
    component is saturated to the uint8 range when written. *)
Definition scalar_sample (color : list Z) (k : nat) : Z :=
  Z.max 0 (Z.min 255 (nth k color 0)).

Definition paint (color : list Z) (p : list Z) : list Z :=
  imap (λ k _, scalar_sample color k) p.

(** The two points are opposite corners, both inside the rectangle. *)
Definition in_span (lo hi : Z) (i : nat) : bool :=
  (Z.min lo hi <=? Z.of_nat i) && (Z.of_nat i <=? Z.max lo hi).

(** A filled rectangle, clipped to the image. *)
Definition fill_rect (a : ndarray) (pt1 pt2 : Z * Z) (color : list Z) : ndarray :=
  NdArray (nd_h a) (nd_w a) (nd_c a)
    (imap (λ y row,
       if in_span pt1.2 pt2.2 y
       then imap (λ x p, if in_span pt1.1 pt2.1 x then paint color p else p) row
       else row) (nd_rows a)).

Definition FILLED : Z := -1.

(** ** PIL fonts *)

Record font : Set := truetype { font_file : string; font_size : Z }.

Definition warning_font : font := truetype "data/Ubuntu-R.ttf" 20.
Definition annotation_font : font := truetype "data/Ubuntu-R.ttf" 16.
Definition bbox_font : font := truetype "data/Ubuntu-R.ttf" 16.

(** ** Channel planes and float arithmetic

    [emoji[:, :, c]] is a two-dimensional array.  Dividing a uint8 plane by
    [255.0] gives a float64 plane; storing a float64 plane into a uint8
    image truncates each value. *)

Record arr2 (A : Type) : Type := Arr2 {
  a2_h : nat;
  a2_w : nat;
  a2_rows : list (list A)
}.
Arguments Arr2 {A} _ _ _.
Arguments a2_h {A} _.
Arguments a2_w {A} _.
Arguments a2_rows {A} _.

(** [a[:, :, k]] *)
Definition chan (a : ndarray) (k : nat) : result (arr2 Z) :=
  if (k <? nd_c a)%nat
  then Ok (Arr2 (nd_h a) (nd_w a) (fmap (M:=list) (λ p : list Z, nth k p 0) <$> nd_rows a))
  else Raise IndexError.

Definition a2_map {A B} (f : A → B) (x : arr2 A) : arr2 B :=
  Arr2 (a2_h x) (a2_w x) (fmap (M:=list) f <$> a2_rows x).

(** numpy broadcasting of two axis lengths. *)
Definition bdim (n m : nat) : result nat :=
  if (n =? m)%nat then Ok n
  else if (n =? 1)%nat then Ok m
  else if (m =? 1)%nat then Ok n
  else Raise ValueError.

Definition stretch {A} (from to : nat) (l : list A) : list A :=
  if (from =? to)%nat then l else l ≫= replicate to.

Definition broadcast_to {A} (h w : nat) (x : arr2 A) : arr2 A :=
  Arr2 h w (stretch (a2_h x) h (stretch (a2_w x) w <$> a2_rows x)).

Definition broadcast2 {A B C} (f : A → B → C) (x : arr2 A) (y : arr2 B)
  : result (arr2 C) :=
  h ← bdim (a2_h x) (a2_h y);
  w ← bdim (a2_w x) (a2_w y);
  Ok (Arr2 h w (zip_with (zip_with f) (a2_rows (broadcast_to h w x))
                                      (a2_rows (broadcast_to h w y)))).

Definition u8_to_float (z : Z) : float := PrimFloat.of_uint63 (Uint63.of_Z z).

(** Truncation toward zero of a finite float. *)
Definition float_trunc (f : float) : Z :=
  match Prim2SF f with
  | S754_finite s m e =>
      let v := if 0 <=? e then Z.shiftl (Z.pos m) e else Z.shiftr (Z.pos m) (- e) in
      if s then - v else v
  | _ => 0
  end.

Definition float_to_u8 (f : float) : Z := float_trunc f mod 256.

(** Samples of a source plane may be written into a target axis of length
    [m] when the source axis has that length or length 1. *)
Definition can_assign (n m : nat) : bool := (n =? m)%nat || (n =? 1)%nat.

Definition in_range (lo len i : nat) : bool := (lo <=? i)%nat && (i <? lo + len)%nat.

Definition a2_get (v : arr2 Z) (y x : nat) : Z :=
  default 0 (r ← a2_rows v !! y; r !! x).

(** [a[y1:y2, x1:x2, c] = v] *)
Definition set_region (a : ndarray) (y1 y2 x1 x2 : Z) (c : nat) (v : arr2 Z)
  : result ndarray :=
  let ylo := py_clip (nd_h a) y1 in
  let sh := py_slice_len (nd_h a) y1 y2 in
  let xlo := py_clip (nd_w a) x1 in
  let sw := py_slice_len (nd_w a) x1 x2 in
  if negb (c <? nd_c a)%nat then Raise IndexError
  else if can_assign (a2_h v) sh && can_assign (a2_w v) sw
  then
    let v' := broadcast_to sh sw v in
    Ok (NdArray (nd_h a) (nd_w a) (nd_c a)
          (imap (λ y row,
             if in_range ylo sh y
             then imap (λ x p,
                    if in_range xlo sw x
                    then <[c := a2_get v' (y - ylo) (x - xlo)]> p
                    else p) row
             else row) (nd_rows a)))
  else Raise ValueError.

(** One sample of the overlay: [e * (a / 255.0) + i * (1.0 - a / 255.0)],
    stored as uint8. *)
Definition blend (e a i : Z) : Z :=
  float_to_u8 (u8_to_float e * (u8_to_float a / 255) +
               u8_to_float i * (1 - u8_to_float a / 255))%float.

(** The body of the loop of [draw_emoji] for channel [c]. *)
Definition draw_emoji_channel (emoji img : loc) (c : nat) : M unit :=
  e ← deref emoji;
  ec ← lift (chan e c);
  ea ← lift (chan e 3);
  fg ← lift (broadcast2 PrimFloat.mul (a2_map u8_to_float ec)
               (a2_map (λ a, u8_to_float a / 255)%float ea));
  i ← deref img;
  ic ← lift (chan (nd_slice i 350 470 10 130) c);
  ea' ← lift (chan e 3);
  bg ← lift (broadcast2 PrimFloat.mul (a2_map u8_to_float ic)
               (a2_map (λ a, 1 - u8_to_float a / 255)%float ea'));
  s ← lift (broadcast2 PrimFloat.add fg bg);
  i' ← lift (set_region i 350 470 10 130 c (a2_map float_to_u8 s));
  assign img i'.

Definition draw_emoji (emoji img : loc) : M loc :=
  _ ← for_each (draw_emoji_channel emoji img) [0; 1; 2]%nat;
  mret img.

(** ** Stand-ins for the external libraries

    Concrete instances of the external operations, used to run the helpers
    on examples: a decoder that knows one file, a rasteriser that strokes
    nothing, and a text renderer that leaves the picture as it is.

    [cv2.imread] reports a file it cannot read or decode by returning
    [None], and raises only where OpenCV itself throws, as for a picture
    larger than its pixel limit. *)

Definition sample_image : ndarray :=
  NdArray 1 2 3 [[[10; 20; 30]; [40; 50; 60]]].

(** [np.full((h, w, len(p)), p)]: every pixel is [p]. *)
Definition np_full (h w : nat) (p : list Z) : ndarray :=
  NdArray h w (length p) (replicate h (replicate w p)).

(** A 3 x 4 image of one channel whose sample at row [y], column [x] is
    [10 (y + 1) + (x + 1)]. *)
Definition sample_grid : ndarray :=
  NdArray 3 4 1 [[[11]; [12]; [13]; [14]];
                 [[21]; [22]; [23]; [24]];
                 [[31]; [32]; [33]; [34]]].

Definition one_file_imread (path : string) : result (option ndarray) :=
  if String.eqb path "face.png" then Ok (Some sample_image)
  else if String.eqb path "huge.png" then Raise cv2_error
  else Ok None.

Definition no_stroke (a : ndarray) (pt1 pt2 : Z * Z) (color : list Z) (thickness : Z)
  : result ndarray := Ok a.

Definition plain_fromarray (a : ndarray) : result ndarray :=
  if (nd_c a =? 3)%nat || (nd_c a =? 4)%nat then Ok a else Raise TypeError.

Definition no_text (im : ndarray) (xy : Z * Z) (text : string) (fill : list Z) (f : font)
  : result ndarray := Ok im.

Section Media.

(** [cv2.imread]: the decoded file, [None] for a file it cannot read, or
    the exception the call raises. *)
Variable cv2_imread : string → result (option ndarray).

(** The outline of [cv2.rectangle] for a thickness of zero or more. *)
Variable stroke_rect : ndarray → Z * Z → Z * Z → list Z → Z → result ndarray.

(** Drawing in place keeps the dimensions of the array. *)
Hypothesis stroke_rect_shape : ∀ a pt1 pt2 color thickness a',
  stroke_rect a pt1 pt2 color thickness = Ok a' → shape a' = shape a.

(** PIL pictures: [Image.fromarray], [ImageDraw.Draw(im).text] and
    [np.array(im)].  PIL never draws into the numpy buffer it was built
    from, so a picture is a value of its own. *)
Variable PILImage : Type.
Variable Image_fromarray : ndarray → result PILImage.
Variable draw_text : PILImage → Z * Z → string → list Z → font → result PILImage.
Variable np_array : PILImage → ndarray.

Definition load_image_path (img_path : string) (mode : string)
  : result (option ndarray) :=
  try_except
    (img ← cv2_imread img_path;
     if String.eqb mode "rgb" then rgb ← convert_to_rgb img; Ok (Some rgb)
     else Ok img)
    (λ exc, Raise exc).

(** [cv2.rectangle(img, pt1, pt2, color, thickness)] on an array value.
    OpenCV draws on at most four channels; a negative thickness fills. *)
Definition rectangle (a : ndarray) (pt1 pt2 : Z * Z) (color : list Z) (thickness : Z)
  : result ndarray :=
  if (4 <? nd_c a)%nat then Raise cv2_error
  else if thickness <? 0 then Ok (fill_rect a pt1 pt2 color)
  else stroke_rect a pt1 pt2 color thickness.

(** The same call on an array object: the drawing happens in place. *)
Definition cv2_rectangle (img : loc) (pt1 pt2 : Z * Z) (color : list Z) (thickness : Z)
  : M unit :=
  a ← deref img;
  a' ← lift (rectangle a pt1 pt2 color thickness);
  assign img a'.

Definition draw_bounding_box (image : loc) (bbox : list Z) (color : list Z) : M loc :=
  '(x1, y1, x2, y2) ← lift (unpack4 bbox);
  _ ← cv2_rectangle image (x1, y1) (x2, y2) color 2;
  mret image.

Definition draw_bounding_box_annotation
    (image : loc) (label : string) (bbox : list Z) (color : list Z) : M loc :=
  '(x1, y1, x2, y2) ← lift (unpack4 bbox);
  _ ← draw_bounding_box image [x1; y1; x2; y2 + 20] color;
  _ ← cv2_rectangle image (x1, y2) (x2, y2 + 20) color FILLED;
  a ← deref image;
  pil_img ← lift (Image_fromarray a);
  pil_img ← lift (draw_text pil_img (x1 + 20, y2 + 2) label [0; 0; 0] bbox_font);
  alloc (np_array pil_img).

Definition annotate_warning (warning_text : string) (img : loc) : M loc :=
  a ← deref img;
  let h := Z.of_nat (nd_h a) in
  let '(x, y) := (150, h - 100) in
  c ← np_copy img;
  ca ← deref c;
  pil_img ← lift (Image_fromarray ca);
  pil_img ← lift (draw_text pil_img (x + 1, y + 1) warning_text [0; 0; 0] warning_font);
  pil_img ← lift (draw_text pil_img (x, y) warning_text [12; 52; 242] warning_font);
  let warning_text := "Emotion chart will be shown for one person only!"%string in
  pil_img ← lift (draw_text pil_img (x, y + 31) warning_text [255; 255; 255] warning_font);
  alloc (np_array pil_img).

(** The corners of the bar drawn for the entry at [index]. *)
Definition bar_corners (index : nat) (confidence : Z) : (Z * Z) * (Z * Z) :=
  let i := Z.of_nat index in
  ((100, i * 20 + 20), (100 + confidence, (i + 1) * 20 + 18)).

(** First loop of [annotate_emotion_stats]: one filled bar per entry. *)
Definition draw_bar (emotion_data : list (string * Z)) (img : loc)
    (entry : nat * string) : M unit :=
  let '(index, emotion) := entry in
  v ← lift (dict_get emotion_data emotion);
  let '(pt1, pt2) := bar_corners index v in
  cv2_rectangle img pt1 pt2 [255; 0; 0] (-1).

(** Second loop: the label and the percentage of one entry. *)
Definition draw_label (emotion_data : list (string * Z)) (pil_img : PILImage)
    (entry : nat * string) : result PILImage :=
  let '(index, emotion) := entry in
  let i := Z.of_nat index in
  pil_img ← draw_text pil_img (10, i * 20 + 20) emotion [7; 109; 16] annotation_font;
  v ← dict_get emotion_data emotion;
  let emotion_confidence := (pretty v +:+ "%")%string in
  v' ← dict_get emotion_data emotion;
  draw_text pil_img (105 + v', i * 20 + 20) emotion_confidence [255; 0; 0] annotation_font.

Fixpoint draw_labels (emotion_data : list (string * Z)) (pil_img : PILImage)
    (entries : list (nat * string)) : result PILImage :=
  match entries with
  | [] => Ok pil_img
  | entry :: rest =>
      pil_img ← draw_label emotion_data pil_img entry;
      draw_labels emotion_data pil_img rest
  end.

Definition annotate_emotion_stats (emotion_data : list (string * Z)) (img : loc)
  : M loc :=
  _ ← for_each (draw_bar emotion_data img) (enumerate (dict_keys emotion_data));
  c ← np_copy img;
  ca ← deref c;
  pil_img ← lift (Image_fromarray ca);
  pil_img ← lift (draw_labels emotion_data pil_img (enumerate (dict_keys emotion_data)));
  alloc (np_array pil_img).

(** *** What the helpers hand to PIL

    The pictures built by the text-drawing part of each helper, as
    functions of the array the picture is made from. *)

Definition warning_picture (warning_text : string) (a : ndarray) : result PILImage :=
  let h := Z.of_nat (nd_h a) in
  pil_img ← Image_fromarray a;
  pil_img ← draw_text pil_img (150 + 1, h - 100 + 1) warning_text [0; 0; 0] warning_font;
  pil_img ← draw_text pil_img (150, h - 100) warning_text [12; 52; 242] warning_font;
  draw_text pil_img (150, h - 100 + 31)
    "Emotion chart will be shown for one person only!" [255; 255; 255] warning_font.

(** The array after the bar of one entry, and after the bars of a list of
    entries, have been drawn into it. *)
Definition bar_of (emotion_data : list (string * Z)) (a : ndarray)
    (entry : nat * string) : ndarray :=
  match dict_get emotion_data entry.2 with
  | Ok v => fill_rect a (bar_corners entry.1 v).1 (bar_corners entry.1 v).2 [255; 0; 0]
  | Raise _ => a
  end.

Definition draw_bars (emotion_data : list (string * Z)) (a : ndarray)
    (entries : list (nat * string)) : ndarray :=
  foldl (bar_of emotion_data) a entries.

Definition stats_picture (emotion_data : list (string * Z)) (a : ndarray)
  : result PILImage :=
  pil_img ← Image_fromarray a;
  draw_labels emotion_data pil_img (enumerate (dict_keys emotion_data)).

(** Pixel [(y, x)] lies in the bar of the entry at [index]. *)
Definition in_bar (index : nat) (confidence : Z) (y x : nat) : bool :=
  in_span (bar_corners index confidence).1.2 (bar_corners index confidence).2.2 y
  && in_span (bar_corners index confidence).1.1 (bar_corners index confidence).2.1 x.

Definition label_picture (label : string) (x1 y2 : Z) (a : ndarray) : result PILImage :=
  pil_img ← Image_fromarray a;
  draw_text pil_img (x1 + 20, y2 + 2) label [0; 0; 0] bbox_font.

(** *** uint8 samples *)

Definition is_u8 (v : Z) : Prop := 0 ≤ v < 256.

Definition uint8_array (a : ndarray) : Prop :=
  Forall (Forall (Forall is_u8)) (nd_rows a).

Definition u8_values : list Z := Z.of_nat <$> seq 0 256.

(** A sample of a two-dimensional list. *)
Definition get2 {A} (rows : list (list A)) (y x : nat) : option A :=
  r ← rows !! y; r !! x.

(** ** dlib rectangles *)

(** [dlib.rectangle(left, top, right, bottom)] *)
Record dlib_rectangle : Set := rectangle_ltrb {
  rect_left : Z;
  rect_top : Z;
  rect_right : Z;
  rect_bottom : Z
}.

Definition convert_to_dlib_rectangle (bbox : list Z) : result dlib_rectangle :=
  l ← py_getitem bbox 0;
  t ← py_getitem bbox 1;
  r ← py_getitem bbox 2;
  b ← py_getitem bbox 3;
  Ok (rectangle_ltrb l t r b).

(** Pixel [(y, x)] lies in the bar of one of the entries. *)
Definition in_some_bar (emotion_data : list (string * Z))
    (entries : list (nat * string)) (y x : nat) : bool :=
  existsb (λ entry : nat * string,
             match dict_get emotion_data entry.2 with
             | Ok v => in_bar entry.1 v y x
             | Raise _ => false
             end) entries.


(** * Properties *)

(** ** Slices *)

Lemma py_clip_inside (n : nat) (k : Z) :
  0 ≤ k ≤ Z.of_nat n → py_clip n k = Z.to_nat k.
Proof.
  intros Hk. unfold py_clip.
  destruct (Z.ltb_spec k 0); [lia|]. f_equal. lia.
Qed.

Lemma py_slice_len_inside (n : nat) (lo hi : Z) :
  0 ≤ lo → lo ≤ hi → hi ≤ Z.of_nat n →
  py_slice_len n lo hi = Z.to_nat (hi - lo).
Proof.
  intros. unfold py_slice_len. rewrite !py_clip_inside by lia. lia.
Qed.

Lemma py_slice_lookup {A} (l : list A) (lo hi : Z) (i : nat) :
  (i < py_slice_len (length l) lo hi)%nat →
  py_slice lo hi l !! i = l !! (py_clip (length l) lo + i)%nat.
Proof.
  intros Hi. unfold py_slice.
  rewrite lookup_take_lt by done. by rewrite lookup_drop.
Qed.

Lemma py_slice_length {A} (l : list A) (lo hi : Z) :
  length (py_slice lo hi l) = py_slice_len (length l) lo hi.
Proof.
  unfold py_slice, py_slice_len, py_clip.
  rewrite length_take, length_drop.
  destruct (Z.ltb_spec hi 0), (Z.ltb_spec lo 0); lia.
Qed.

Lemma py_slice_Forall {A} (P : A → Prop) (l : list A) (lo hi : Z) :
  Forall P l → Forall P (py_slice lo hi l).
Proof. intros H. unfold py_slice. by apply Forall_take, Forall_drop. Qed.

Lemma nd_slice_wf (a : ndarray) (y1 y2 x1 x2 : Z) :
  wf_ndarray a → wf_ndarray (nd_slice a y1 y2 x1 x2).
Proof.
  intros [Hh Hrows]. split; simpl.
  - by rewrite length_fmap, py_slice_length, Hh.
  - apply Forall_fmap, py_slice_Forall.
    eapply Forall_impl; [exact Hrows|].
    intros r [Hw Hp]. split; simpl.
    + by rewrite py_slice_length, Hw.
    + by apply py_slice_Forall.
Qed.

Lemma nd_slice_get (a : ndarray) (y1 y2 x1 x2 : Z) (i j k : nat) :
  wf_ndarray a →
  (i < py_slice_len (nd_h a) y1 y2)%nat →
  (j < py_slice_len (nd_w a) x1 x2)%nat →
  nd_get (nd_slice a y1 y2 x1 x2) i j k
  = nd_get a (py_clip (nd_h a) y1 + i) (py_clip (nd_w a) x1 + j) k.
Proof.
  intros [Hh Hrows] Hi Hj. unfold nd_get; simpl.
  rewrite list_lookup_fmap, py_slice_lookup by (by rewrite Hh).
  rewrite Hh.
  destruct (nd_rows a !! (py_clip (nd_h a) y1 + i)%nat) as [r|] eqn:Hr; simpl; [|done].
  assert (length r = nd_w a) as Hw.
  { eapply Forall_lookup_1 in Hrows as [? _]; eauto. }
  rewrite py_slice_lookup by (by rewrite Hw). by rewrite Hw.
Qed.

(** ** Region extraction and validation *)

(** C1 (amended).  A null image makes both [convert_to_rgb] and
    [get_facial_ROI] raise [InvalidImage], whatever the bounding box; an
    empty image makes [convert_to_rgb] raise [InvalidImage].  The guard of
    [get_facial_ROI] tests the image against [None] only. *)
Theorem invalid_image_raised :
  (∀ bbox, get_facial_ROI None bbox = Raise InvalidImage)
  ∧ convert_to_rgb None = Raise InvalidImage
  ∧ (∀ a, nd_size a = 0%nat → convert_to_rgb (Some a) = Raise InvalidImage).
Proof.
  split; [by intros [b|]|]. split; [done|].
  intros a Ha. unfold convert_to_rgb, is_valid_img. by rewrite Ha.
Qed.

(** C1, as stated, fails on an empty image: [get_facial_ROI] applied to
    the array of shape (0, 0, 3) and the box [0, 0, 1, 1] returns the
    empty slice and raises nothing. *)
Lemma get_facial_ROI_empty_image :
  let empty := NdArray 0 0 3 [] in
  nd_size empty = 0%nat
  ∧ get_facial_ROI (Some empty) (Some [0; 0; 1; 1]) = Ok empty
  ∧ get_facial_ROI (Some empty) (Some [0; 0; 1; 1]) ≠ Raise InvalidImage.
Proof. by vm_compute. Qed.

(** C2.  For a box [x1, y1, x2, y2] with [x1 < x2] and [y1 < y2] inside
    the image, [get_facial_ROI] returns an array of shape
    [(y2 - y1, x2 - x1, channels)] whose sample at [(i, j, k)] is the
    sample of the image at [(y1 + i, x1 + j, k)]. *)
Theorem get_facial_ROI_shape (a : ndarray) (x1 y1 x2 y2 : Z) :
  wf_ndarray a →
  0 ≤ x1 → x1 < x2 → x2 ≤ Z.of_nat (nd_w a) →
  0 ≤ y1 → y1 < y2 → y2 ≤ Z.of_nat (nd_h a) →
  ∃ roi,
    get_facial_ROI (Some a) (Some [x1; y1; x2; y2]) = Ok roi
    ∧ shape roi = (Z.to_nat (y2 - y1), Z.to_nat (x2 - x1), nd_c a)
    ∧ wf_ndarray roi
    ∧ ∀ i j k : nat,
        (i < Z.to_nat (y2 - y1))%nat → (j < Z.to_nat (x2 - x1))%nat →
        nd_get roi i j k = nd_get a (Z.to_nat y1 + i) (Z.to_nat x1 + j) k.
Proof.
  intros Hwf Hx1 Hx Hx2 Hy1 Hy Hy2.
  exists (nd_slice a y1 y2 x1 x2). split; [done|].
  split.
  { unfold shape; simpl. by rewrite !py_slice_len_inside by lia. }
  split; [by apply nd_slice_wf|].
  intros i j k Hi Hj.
  rewrite nd_slice_get; [|done|rewrite py_slice_len_inside; lia..].
  by rewrite !py_clip_inside by lia.
Qed.

(** C3.  With an image and no bounding box, [get_facial_ROI] raises
    [ValueError], which is not [InvalidImage]. *)
Theorem get_facial_ROI_null_bbox (a : ndarray) :
  get_facial_ROI (Some a) None = Raise ValueError
  ∧ ValueError ≠ InvalidImage.
Proof. done. Qed.

(** ** Colour conversion *)

Lemma swap_rb_involutive (p : list Z) : length p = 3%nat → swap_rb (swap_rb p) = p.
Proof. by destruct p as [|b [|g [|r [|]]]]. Qed.

Lemma swap_rb_rows_involutive (w : nat) (rows : list (list (list Z))) :
  Forall (wf_row w 3) rows →
  fmap (M:=list) swap_rb <$> (fmap (M:=list) swap_rb <$> rows) = rows.
Proof.
  induction 1 as [|r rows [_ Hr] _ IH]; [done|].
  rewrite !fmap_cons, IH. f_equal.
  clear -Hr. induction Hr as [|p r Hp _ IHr]; [done|].
  by rewrite !fmap_cons, IHr, swap_rb_involutive.
Qed.

Lemma swap_rb_lookup (p : list Z) (k : nat) :
  length p = 3%nat → (k < 3)%nat → swap_rb p !! k = p !! (2 - k)%nat.
Proof.
  destruct p as [|b [|g [|r [|]]]]; try done.
  intros _ Hk. by destruct k as [|[|[|]]]; try lia.
Qed.

(** C9 (amended).  On a valid image with three channels, [convert_to_rgb]
    succeeds, reverses the channel order of every pixel, and the inverse
    conversion applied to its result gives back the image, sample for
    sample.  The three channels are needed: the conversion keeps three
    channels of a four-channel image. *)
Theorem convert_to_rgb_roundtrip (a : ndarray) :
  wf_ndarray a → is_valid_img (Some a) = true → nd_c a = 3%nat →
  ∃ rgb,
    convert_to_rgb (Some a) = Ok rgb
    ∧ shape rgb = shape a
    ∧ (∀ y x k : nat, (k < 3)%nat → nd_get rgb y x k = nd_get a y x (2 - k))
    ∧ cvtColor_RGB2BGR (Some rgb) = Ok a.
Proof.
  intros [Hh Hrows] Hvalid Hc.
  unfold convert_to_rgb. rewrite Hvalid.
  apply negb_true_iff in Hvalid.
  destruct a as [h w c rows]; simpl in *; subst c.
  eexists. split; [unfold cvtColor_BGR2RGB; simpl; by rewrite Hvalid|].
  split; [done|]. split.
  - intros y x k Hk. unfold nd_get; simpl.
    rewrite list_lookup_fmap.
    destruct (rows !! y) as [r|] eqn:Hr; simpl; [|done].
    rewrite list_lookup_fmap.
    destruct (r !! x) as [p|] eqn:Hp; simpl; [|done].
    apply swap_rb_lookup; [|done].
    eapply Forall_lookup_1 in Hrows as [_ Hr']; [|done].
    by eapply Forall_lookup_1 in Hr'.
  - unfold cvtColor_RGB2BGR, cvtColor_BGR2RGB; simpl.
    unfold nd_size in *; simpl in *. rewrite Hvalid; simpl.
    by rewrite (swap_rb_rows_involutive w).
Qed.

(** ** Loading *)

(** C8 (amended).  [load_image_path] returns [convert_to_rgb] of what the
    decoder returned when the mode is ["rgb"] and what the decoder
    returned, as it is, for any other mode; an exception raised by the
    decoder or by the conversion reaches the caller as the same exception.
    A file that cannot be read is not such an exception: the decoder
    returns [None] for it, and the caller gets [InvalidImage] in mode
    ["rgb"] and [None] in any other mode. *)
Theorem load_image_path_spec (img_path mode : string) :
  (∀ img, cv2_imread img_path = Ok img → mode = "rgb"%string →
     load_image_path img_path mode
     = match convert_to_rgb img with
       | Ok rgb => Ok (Some rgb)
       | Raise exc => Raise exc
       end)
  ∧ (∀ img, cv2_imread img_path = Ok img → mode ≠ "rgb"%string →
       load_image_path img_path mode = Ok img)
  ∧ (∀ exc, cv2_imread img_path = Raise exc →
       load_image_path img_path mode = Raise exc)
  ∧ (cv2_imread img_path = Ok None →
       load_image_path img_path mode
       = if String.eqb mode "rgb" then Raise InvalidImage else Ok None).
Proof.
  unfold load_image_path, try_except. repeat split.
  - intros img -> ->. simpl. by destruct (convert_to_rgb img).
  - intros img -> Hmode. simpl.
    destruct (String.eqb_spec mode "rgb"); [done|]. by destruct img.
  - by intros exc ->.
  - intros ->. simpl. by destruct (String.eqb mode "rgb").
Qed.

(** ** The store *)

Lemma fresh_not_allocated (σ : gmap loc ndarray) : σ !! fresh (dom σ) = None.
Proof. apply not_elem_of_dom, is_fresh. Qed.

Lemma allocated_not_fresh (σ : gmap loc ndarray) (l : loc) (a : ndarray) :
  σ !! l = Some a → l ≠ fresh (dom σ).
Proof. intros Hl ->. by rewrite fresh_not_allocated in Hl. Qed.

Lemma bind_Ok {A B} (m : M A) (f : A → M B) σ a σ' :
  m σ = (Ok a, σ') → (m ≫= f) σ = f a σ'.
Proof. unfold mbind, M_bind. by intros ->. Qed.

Lemma bind_Raise {A B} (m : M A) (f : A → M B) σ e σ' :
  m σ = (Raise e, σ') → (m ≫= f) σ = (Raise e, σ').
Proof. unfold mbind, M_bind. by intros ->. Qed.

Lemma deref_Some σ l a : σ !! l = Some a → deref l σ = (Ok a, σ).
Proof. unfold deref. by intros ->. Qed.

Lemma np_copy_Some σ l a :
  σ !! l = Some a → np_copy l σ = (Ok (fresh (dom σ)), <[fresh (dom σ) := a]> σ).
Proof. intros Hl. unfold np_copy. by rewrite (bind_Ok _ _ _ _ _ (deref_Some _ _ _ Hl)). Qed.

(** ** Warning banner *)

(** C5.  [annotate_warning] leaves the caller's array, and every other
    array of the store, as it was.  When the text rendering succeeds the
    result is an array object that did not exist before the call, holding
    the picture with the three lines of text; when the rendering raises,
    the exception is the one raised by PIL. *)
Theorem annotate_warning_input_unchanged (warning_text : string) (img : loc)
    (σ : gmap loc ndarray) (a : ndarray) :
  σ !! img = Some a →
  ∃ r σ',
    annotate_warning warning_text img σ = (r, σ')
    ∧ σ' !! img = Some a
    ∧ (∀ l b, σ !! l = Some b → σ' !! l = Some b)
    ∧ match r with
      | Ok out =>
          σ !! out = None ∧ out ≠ img
          ∧ ∃ p, warning_picture warning_text a = Ok p
                 ∧ σ' !! out = Some (np_array p)
      | Raise exc => warning_picture warning_text a = Raise exc
      end.
Proof.
  intros Himg.
  pose proof (allocated_not_fresh _ _ _ Himg) as Hl1.
  assert (∀ l b, σ !! l = Some b → <[fresh (dom σ) := a]> σ !! l = Some b) as Hkeep.
  { intros l b Hl. rewrite lookup_insert_ne; [done|].
    intros <-. by rewrite fresh_not_allocated in Hl. }
  set (σ1 := <[fresh (dom σ) := a]> σ) in *.
  assert (σ1 !! fresh (dom σ) = Some a) as Hc by apply lookup_insert_eq.
  unfold annotate_warning.
  rewrite (bind_Ok _ _ _ _ _ (deref_Some _ _ _ Himg)).
  rewrite (bind_Ok _ _ _ _ _ (np_copy_Some _ _ _ Himg)).
  fold σ1.
  rewrite (bind_Ok _ _ _ _ _ (deref_Some _ _ _ Hc)).
  unfold warning_picture, lift, mbind, M_bind, alloc, result_bind.
  destruct (Image_fromarray a) as [p0|e]; [|by eauto 8].
  destruct (draw_text p0 _ _ _ _) as [p1|e]; [|by eauto 8].
  destruct (draw_text p1 _ _ _ _) as [p2|e]; [|by eauto 8].
  destruct (draw_text p2 _ _ _ _) as [p3|e]; [|by eauto 8].
  eexists _, _. split; [done|].
  assert (∀ l b, σ !! l = Some b → fresh (dom σ1) ≠ l) as Hl2.
  { intros l b Hl. apply not_eq_sym. eapply allocated_not_fresh, Hkeep, Hl. }
  split; [by rewrite lookup_insert_ne; eauto|].
  split; [by intros l b Hl; rewrite lookup_insert_ne; eauto|].
  split.
  { destruct (σ !! fresh (dom σ1)) as [b|] eqn:Hb; [|done].
    by destruct (Hl2 _ _ Hb). }
  split; [by eapply Hl2|].
  exists p3. split; [done|]. apply lookup_insert_eq.
Qed.

(** ** Filled rectangles *)

Lemma fill_rect_get (a : ndarray) (pt1 pt2 : Z * Z) (color : list Z) (y x k : nat) :
  nd_get (fill_rect a pt1 pt2 color) y x k
  = if in_span pt1.2 pt2.2 y && in_span pt1.1 pt2.1 x
    then _ ← nd_get a y x k; Some (scalar_sample color k)
    else nd_get a y x k.
Proof.
  unfold nd_get; simpl. rewrite list_lookup_imap.
  destruct (nd_rows a !! y) as [r|]; simpl; [|by destruct (_ && _)].
  destruct (in_span pt1.2 pt2.2 y); simpl; [|done].
  rewrite list_lookup_imap.
  destruct (r !! x) as [p|]; simpl; [|by destruct (in_span _ _ x)].
  destruct (in_span pt1.1 pt2.1 x); simpl; [|done].
  unfold paint. rewrite list_lookup_imap. by destruct (p !! k).
Qed.

Lemma fill_rect_shape (a : ndarray) (pt1 pt2 : Z * Z) (color : list Z) :
  shape (fill_rect a pt1 pt2 color) = shape a.
Proof. done. Qed.

(** ** Emotion chart *)

Lemma dict_get_key (d : list (string * Z)) (k : string) :
  k ∈ dict_keys d → ∃ v, dict_get d k = Ok v.
Proof.
  unfold dict_keys. induction d as [|[k' v] d IH]; simpl.
  - by intros ?%elem_of_nil.
  - intros Hk. destruct (String.eqb_spec k' k); [by eauto|].
    apply elem_of_cons in Hk as [->|Hk]; [done|]. by apply IH.
Qed.

Lemma enumerate_lookup {A} (xs : list A) (i : nat) (e : nat * A) :
  enumerate xs !! i = Some e ↔ e.1 = i ∧ xs !! i = Some e.2.
Proof.
  unfold enumerate. rewrite list_lookup_imap.
  destruct e as [j y]; simpl. destruct (xs !! i) as [x|]; simpl.
  - split; [by intros [= -> ->]|by intros [-> [= ->]]].
  - split; [done|by intros [_ ?]].
Qed.

Lemma enumerate_keys (d : list (string * Z)) :
  Forall (λ e : nat * string, e.2 ∈ dict_keys d) (enumerate (dict_keys d)).
Proof.
  apply Forall_lookup. intros i e [_ He]%enumerate_lookup.
  by eapply list_elem_of_lookup_2.
Qed.

Lemma draw_bars_channels (d : list (string * Z)) (entries : list (nat * string))
    (a : ndarray) :
  shape (draw_bars d a entries) = shape a.
Proof.
  revert a. induction entries as [|e entries IH]; intros a; simpl; [done|].
  unfold draw_bars in *; simpl. rewrite IH. unfold bar_of.
  by destruct (dict_get d e.2).
Qed.

Lemma draw_bars_run (d : list (string * Z)) (img : loc)
    (entries : list (nat * string)) (σ : gmap loc ndarray) (a : ndarray) :
  σ !! img = Some a → (nd_c a ≤ 4)%nat →
  Forall (λ e : nat * string, e.2 ∈ dict_keys d) entries →
  for_each (draw_bar d img) entries σ
  = (Ok (), <[img := draw_bars d a entries]> σ).
Proof.
  intros Himg Hc Hkeys. revert σ a Himg Hc.
  induction Hkeys as [|[i key] entries Hkey _ IH]; intros σ a Himg Hc; simpl.
  - unfold mret, M_ret. by rewrite insert_id.
  - apply dict_get_key in Hkey as [v Hv]. simpl in Hv.
    assert (draw_bar d img (i, key) σ
            = (Ok (), <[img := bar_of d a (i, key)]> σ)) as Hstep.
    { unfold draw_bar, bar_of, cv2_rectangle, rectangle; simpl. rewrite Hv; simpl.
      unfold lift, mbind, M_bind, deref, assign, result_bind. rewrite Himg.
      by destruct (Nat.ltb_spec 4 (nd_c a)); [lia|]. }
    rewrite (bind_Ok _ _ _ _ _ Hstep).
    rewrite (IH _ (bar_of d a (i, key))).
    + by rewrite insert_insert_eq.
    + apply lookup_insert_eq.
    + unfold bar_of; simpl. by rewrite Hv.
Qed.

Lemma bar_of_get (d : list (string * Z)) (a : ndarray) (e : nat * string) (y x k : nat) :
  nd_get (bar_of d a e) y x k = nd_get a y x k
  ∨ nd_get (bar_of d a e) y x k
    = (_ ← nd_get a y x k; Some (scalar_sample [255; 0; 0] k)).
Proof.
  unfold bar_of. destruct (dict_get d e.2) as [v|]; [|by left].
  rewrite fill_rect_get. destruct (_ && _); [by right|by left].
Qed.

Lemma draw_bars_keeps_paint (d : list (string * Z)) (entries : list (nat * string))
    (a : ndarray) (y x k : nat) :
  nd_get a y x k = Some (scalar_sample [255; 0; 0] k) →
  nd_get (draw_bars d a entries) y x k = Some (scalar_sample [255; 0; 0] k).
Proof.
  revert a. induction entries as [|e entries IH]; intros a Ha; [done|].
  apply IH. destruct (bar_of_get d a e y x k) as [-> | ->]; by rewrite Ha.
Qed.

Lemma draw_bars_paints (d : list (string * Z)) (entries : list (nat * string))
    (a : ndarray) (i : nat) (key : string) (v : Z) (y x k : nat) :
  (i, key) ∈ entries → dict_get d key = Ok v →
  in_bar i v y x = true → is_Some (nd_get a y x k) →
  nd_get (draw_bars d a entries) y x k = Some (scalar_sample [255; 0; 0] k).
Proof.
  intros Hin Hv Hbar. revert a.
  induction entries as [|e entries IH]; intros a [s Hs].
  - by apply elem_of_nil in Hin.
  - apply elem_of_cons in Hin as [<-|Hin].
    + apply (draw_bars_keeps_paint d entries (bar_of d a (i, key))).
      unfold bar_of. cbn [fst snd]. rewrite Hv.
      rewrite fill_rect_get. unfold in_bar in Hbar. by rewrite Hbar, Hs.
    + apply (IH Hin).
      destruct (bar_of_get d a e y x k) as [-> | ->]; rewrite Hs; by eauto.
Qed.

(** The whole of [annotate_emotion_stats] on a store: the bars go into the
    caller's array, the text goes onto a picture made from a copy. *)
Lemma annotate_emotion_stats_run (d : list (string * Z)) (img : loc)
    (σ : gmap loc ndarray) (a : ndarray) :
  σ !! img = Some a → (nd_c a ≤ 4)%nat →
  let bars := draw_bars d a (enumerate (dict_keys d)) in
  ∃ r σ',
    annotate_emotion_stats d img σ = (r, σ')
    ∧ σ' !! img = Some bars
    ∧ (∀ l b, l ≠ img → σ !! l = Some b → σ' !! l = Some b)
    ∧ match r with
      | Ok out =>
          σ !! out = None ∧ out ≠ img
          ∧ ∃ p, stats_picture d bars = Ok p ∧ σ' !! out = Some (np_array p)
      | Raise exc => stats_picture d bars = Raise exc
      end.
Proof.
  intros Himg Hc bars.
  unfold annotate_emotion_stats.
  rewrite (bind_Ok _ _ _ _ _ (draw_bars_run d img _ σ a Himg Hc (enumerate_keys d))).
  fold bars. set (σ0 := <[img := bars]> σ).
  assert (σ0 !! img = Some bars) as H0 by apply lookup_insert_eq.
  assert (∀ l b, l ≠ img → σ !! l = Some b → σ0 !! l = Some b) as Hkeep0.
  { intros l b Hl Hb. unfold σ0. by rewrite lookup_insert_ne. }
  assert (∀ l, σ0 !! l = None → σ !! l = None) as Hnone.
  { intros l. unfold σ0. destruct (decide (l = img)) as [->|Hl].
    - by rewrite lookup_insert_eq.
    - by rewrite lookup_insert_ne. }
  clearbody σ0.
  rewrite (bind_Ok _ _ _ _ _ (np_copy_Some _ _ _ H0)).
  set (σ1 := <[fresh (dom σ0) := bars]> σ0).
  assert (σ1 !! fresh (dom σ0) = Some bars) as H1 by apply lookup_insert_eq.
  assert (∀ l b, σ0 !! l = Some b → σ1 !! l = Some b) as Hkeep1.
  { intros l b Hb. unfold σ1. rewrite lookup_insert_ne; [done|].
    apply not_eq_sym. by eapply allocated_not_fresh. }
  assert (∀ l, σ1 !! l = None → σ0 !! l = None) as Hnone1.
  { intros l Hl. destruct (σ0 !! l) as [b|] eqn:Hb; [|done].
    by rewrite (Hkeep1 _ _ Hb) in Hl. }
  clearbody σ1.
  rewrite (bind_Ok _ _ _ _ _ (deref_Some _ _ _ H1)).
  unfold stats_picture, lift, mbind, M_bind, alloc, result_bind.
  destruct (Image_fromarray bars) as [p0|e]; [|by eauto 10].
  destruct (draw_labels d p0 _) as [p1|e]; [|by eauto 10].
  pose proof (fresh_not_allocated σ1) as Hfresh.
  assert (fresh (dom σ1) ≠ img) as Hne.
  { apply not_eq_sym. eapply allocated_not_fresh; eauto. }
  eexists _, _. split; [done|].
  split; [by rewrite lookup_insert_ne; eauto|].
  split.
  { intros l b Hl Hb. rewrite lookup_insert_ne; [by eauto|].
    apply not_eq_sym. eapply allocated_not_fresh; eauto. }
  split; [by eauto|]. split; [done|].
  exists p1. split; [done|]. apply lookup_insert_eq.
Qed.

Lemma in_bar_intro (i : nat) (v : Z) (y x : nat) :
  Z.of_nat i * 20 + 20 ≤ Z.of_nat y ≤ (Z.of_nat i + 1) * 20 + 18 →
  100 ≤ Z.of_nat x ≤ 100 + v →
  in_bar i v y x = true.
Proof.
  intros Hy Hx. unfold in_bar, in_span, bar_corners; simpl.
  rewrite !andb_true_iff, !Z.leb_le. lia.
Qed.

(** C6.  For the mapping [{"happy": 80, "sad": 20}] the caller's array
    ends up with a filled rectangle between (100, 20) and (180, 38) and
    one between (100, 40) and (120, 58).  In general the bar of the entry
    at index [i] with confidence [v] has corners [(100, 20 i + 20)] and
    [(100 + v, 20 (i + 1) + 18)], and every sample of the image inside it
    holds the bar colour after the call. *)
Theorem annotate_emotion_stats_bars :
  (∀ (img : loc) (σ : gmap loc ndarray) (a : ndarray),
     σ !! img = Some a → (nd_c a ≤ 4)%nat →
     ∃ r σ',
       annotate_emotion_stats [("happy", 80); ("sad", 20)]%string img σ = (r, σ')
       ∧ σ' !! img
         = Some (fill_rect (fill_rect a (100, 20) (180, 38) [255; 0; 0])
                           (100, 40) (120, 58) [255; 0; 0]))
  ∧ (∀ (d : list (string * Z)) (img : loc) (σ : gmap loc ndarray) (a : ndarray)
       (i : nat) (key : string) (v : Z),
       σ !! img = Some a → (nd_c a ≤ 4)%nat →
       dict_keys d !! i = Some key → dict_get d key = Ok v →
       bar_corners i v
       = ((100, Z.of_nat i * 20 + 20), (100 + v, (Z.of_nat i + 1) * 20 + 18))
       ∧ ∃ r σ' a',
           annotate_emotion_stats d img σ = (r, σ')
           ∧ σ' !! img = Some a'
           ∧ shape a' = shape a
           ∧ ∀ y x k : nat,
               Z.of_nat i * 20 + 20 ≤ Z.of_nat y ≤ (Z.of_nat i + 1) * 20 + 18 →
               100 ≤ Z.of_nat x ≤ 100 + v →
               is_Some (nd_get a y x k) →
               nd_get a' y x k = Some (scalar_sample [255; 0; 0] k)).
Proof.
  split.
  - intros img σ a Himg Hc.
    destruct (annotate_emotion_stats_run [("happy", 80); ("sad", 20)]%string
                img σ a Himg Hc) as (r & σ' & Hrun & Hbars & _).
    by exists r, σ'.
  - intros d img σ a i key v Himg Hc Hkey Hv. split; [done|].
    destruct (annotate_emotion_stats_run d img σ a Himg Hc)
      as (r & σ' & Hrun & Hbars & _).
    eexists r, σ', _. split; [done|]. split; [done|].
    split; [apply draw_bars_channels|].
    intros y x k Hy Hx Hsome.
    apply (draw_bars_paints d _ a i key v); [|done|by apply in_bar_intro|done].
    eapply list_elem_of_lookup_2, enumerate_lookup. by split.
Qed.

(** C10.  [annotate_emotion_stats] draws the bars into the caller's
    array: after the call that array holds the image with all the bars and
    none of the text, because the copy handed to PIL is taken after the
    bars were drawn.  The array it returns is another object, holding the
    picture made from that copy; every other array is untouched. *)
Theorem annotate_emotion_stats_mutates_input (d : list (string * Z)) (img : loc)
    (σ : gmap loc ndarray) (a : ndarray) :
  σ !! img = Some a → (nd_c a ≤ 4)%nat →
  ∃ r σ',
    annotate_emotion_stats d img σ = (r, σ')
    ∧ σ' !! img = Some (draw_bars d a (enumerate (dict_keys d)))
    ∧ (∀ (i : nat) (key : string) (v : Z) (y x k : nat),
         dict_keys d !! i = Some key → dict_get d key = Ok v →
         in_bar i v y x = true → is_Some (nd_get a y x k) →
         nd_get (draw_bars d a (enumerate (dict_keys d))) y x k
         = Some (scalar_sample [255; 0; 0] k))
    ∧ (∀ l b, l ≠ img → σ !! l = Some b → σ' !! l = Some b)
    ∧ match r with
      | Ok out =>
          σ !! out = None ∧ out ≠ img
          ∧ ∃ p, stats_picture d (draw_bars d a (enumerate (dict_keys d))) = Ok p
                 ∧ σ' !! out = Some (np_array p)
      | Raise exc =>
          stats_picture d (draw_bars d a (enumerate (dict_keys d))) = Raise exc
      end.
Proof.
  intros Himg Hc.
  destruct (annotate_emotion_stats_run d img σ a Himg Hc)
    as (r & σ' & Hrun & Hbars & Hkeep & Hr).
  exists r, σ'. split; [done|]. split; [done|]. split; [|done].
  intros i key v y x k Hkey Hv Hbar Hsome.
  apply (draw_bars_paints d _ a i key v); [|done..].
  eapply list_elem_of_lookup_2, enumerate_lookup. by split.
Qed.

(** ** Labelled bounding box *)

Lemma cv2_rectangle_run (img : loc) (pt1 pt2 : Z * Z) (color : list Z) (thickness : Z)
    (σ : gmap loc ndarray) (a a' : ndarray) :
  σ !! img = Some a → rectangle a pt1 pt2 color thickness = Ok a' →
  cv2_rectangle img pt1 pt2 color thickness σ = (Ok (), <[img := a']> σ).
Proof.
  intros Himg Hrect. unfold cv2_rectangle.
  rewrite (bind_Ok _ _ _ _ _ (deref_Some _ _ _ Himg)).
  unfold lift, mbind, M_bind. by rewrite Hrect.
Qed.

(** C7.  [draw_bounding_box_annotation] strokes, with thickness 2, the
    rectangle from [(x1, y1)] to [(x2, y2 + 20)], fills the strip from
    [(x1, y2)] to [(x2, y2 + 20)] with the box colour, and returns an
    array object that did not exist before, made from the picture on which
    the label is written in black with the 16 point font at
    [(x1 + 20, y2 + 2)], a point of the strip's rows.  The stroke and the
    strip are drawn into the caller's array. *)
Theorem draw_bounding_box_annotation_spec (image : loc) (label : string)
    (x1 y1 x2 y2 : Z) (color : list Z) (σ : gmap loc ndarray) (a outlined : ndarray) :
  σ !! image = Some a → (nd_c a ≤ 4)%nat →
  stroke_rect a (x1, y1) (x2, y2 + 20) color 2 = Ok outlined →
  let boxed := fill_rect outlined (x1, y2) (x2, y2 + 20) color in
  ∃ r σ',
    draw_bounding_box_annotation image label [x1; y1; x2; y2] color σ = (r, σ')
    ∧ σ' !! image = Some boxed
    ∧ (∀ y x k : nat,
         y2 ≤ Z.of_nat y ≤ y2 + 20 →
         Z.min x1 x2 ≤ Z.of_nat x ≤ Z.max x1 x2 →
         is_Some (nd_get outlined y x k) →
         nd_get boxed y x k = Some (scalar_sample color k))
    ∧ font_size bbox_font = 16 ∧ y2 ≤ y2 + 2 ≤ y2 + 20
    ∧ match r with
      | Ok out =>
          σ !! out = None ∧ out ≠ image
          ∧ ∃ p0 p,
              Image_fromarray boxed = Ok p0
              ∧ draw_text p0 (x1 + 20, y2 + 2) label [0; 0; 0] bbox_font = Ok p
              ∧ σ' !! out = Some (np_array p)
      | Raise exc => label_picture label x1 y2 boxed = Raise exc
      end.
Proof.
  intros Himg Hc Hstroke boxed.
  assert (nd_c outlined = nd_c a) as Hc'.
  { apply stroke_rect_shape in Hstroke. by injection Hstroke. }
  assert (rectangle a (x1, y1) (x2, y2 + 20) color 2 = Ok outlined) as Hr1.
  { unfold rectangle. by destruct (Nat.ltb_spec 4 (nd_c a)); [lia|]. }
  assert (rectangle outlined (x1, y2) (x2, y2 + 20) color FILLED = Ok boxed) as Hr2.
  { unfold rectangle. rewrite Hc'. by destruct (Nat.ltb_spec 4 (nd_c a)); [lia|]. }
  set (σ1 := <[image := outlined]> σ).
  assert (σ1 !! image = Some outlined) as H1 by apply lookup_insert_eq.
  assert (draw_bounding_box image [x1; y1; x2; y2 + 20] color σ = (Ok image, σ1)) as Hbox.
  { unfold draw_bounding_box; simpl.
    rewrite (bind_Ok _ _ _ _ _ (eq_refl : lift (Ok (x1, y1, x2, y2 + 20)) σ = (_, σ))).
    by rewrite (bind_Ok _ _ _ _ _ (cv2_rectangle_run _ _ _ _ _ _ _ _ Himg Hr1)). }
  unfold draw_bounding_box_annotation; simpl.
  rewrite (bind_Ok _ _ _ _ _ (eq_refl : lift (Ok (x1, y1, x2, y2)) σ = (_, σ))).
  rewrite (bind_Ok _ _ _ _ _ Hbox).
  rewrite (bind_Ok _ _ _ _ _ (cv2_rectangle_run _ _ _ _ _ _ _ _ H1 Hr2)).
  unfold σ1. rewrite insert_insert_eq.
  set (σ2 := <[image := boxed]> σ).
  assert (σ2 !! image = Some boxed) as H2 by apply lookup_insert_eq.
  rewrite (bind_Ok _ _ _ _ _ (deref_Some _ _ _ H2)).
  assert (∀ l, σ2 !! l = None → σ !! l = None) as Hnone.
  { intros l. unfold σ2. destruct (decide (l = image)) as [->|Hl].
    - by rewrite lookup_insert_eq.
    - by rewrite lookup_insert_ne. }
  assert (∀ y x k : nat,
            y2 ≤ Z.of_nat y ≤ y2 + 20 →
            Z.min x1 x2 ≤ Z.of_nat x ≤ Z.max x1 x2 →
            is_Some (nd_get outlined y x k) →
            nd_get boxed y x k = Some (scalar_sample color k)) as Hstrip.
  { intros y x k Hy Hx [s Hs]. unfold boxed. rewrite fill_rect_get, Hs; simpl.
    unfold in_span.
    destruct (Z.leb_spec (Z.min y2 (y2 + 20)) (Z.of_nat y)); [|lia].
    destruct (Z.leb_spec (Z.of_nat y) (Z.max y2 (y2 + 20))); [|lia].
    destruct (Z.leb_spec (Z.min x1 x2) (Z.of_nat x)); [|lia].
    by destruct (Z.leb_spec (Z.of_nat x) (Z.max x1 x2)); [|lia]. }
  clearbody σ2.
  unfold label_picture, lift, mbind, M_bind, alloc, result_bind.
  destruct (Image_fromarray boxed) as [p0|e];
    [|by eexists _, _; repeat split; eauto; lia].
  destruct (draw_text p0 _ _ _ _) as [p|e] eqn:Hp;
    [|by eexists _, _; repeat split; eauto; lia].
  pose proof (fresh_not_allocated σ2) as Hfresh.
  assert (fresh (dom σ2) ≠ image) as Hne.
  { apply not_eq_sym. eapply allocated_not_fresh; eauto. }
  eexists _, _. split; [done|].
  split; [by rewrite lookup_insert_ne|].
  split; [done|]. split; [done|]. split; [lia|].
  split; [by eauto|]. split; [done|].
  exists p0, p. split; [done|]. split; [done|]. apply lookup_insert_eq.
Qed.

(** ** Emoji overlay *)

(** *** The blend on uint8 samples

    Both facts are checked on all 65536 pairs of samples by evaluating the
    float64 arithmetic. *)

Lemma blend_opaque_table :
  forallb (λ e, forallb (λ i, blend e 255 i =? e) u8_values) u8_values = true.
Proof. vm_compute. reflexivity. Qed.

Lemma blend_transparent_table :
  forallb (λ e, forallb (λ i, blend e 0 i =? i) u8_values) u8_values = true.
Proof. vm_compute. reflexivity. Qed.

Lemma u8_values_In (v : Z) : is_u8 v → In v u8_values.
Proof.
  intros Hv. unfold u8_values.
  replace v with (Z.of_nat (Z.to_nat v)) by (unfold is_u8 in Hv; lia).
  apply in_map, in_seq. unfold is_u8 in Hv. lia.
Qed.

Lemma blend_opaque (e i : Z) : is_u8 e → is_u8 i → blend e 255 i = e.
Proof.
  intros He Hi. pose proof blend_opaque_table as H.
  rewrite List.forallb_forall in H. specialize (H e (u8_values_In e He)).
  rewrite List.forallb_forall in H. specialize (H i (u8_values_In i Hi)).
  by apply Z.eqb_eq.
Qed.

Lemma blend_transparent (e i : Z) : is_u8 e → is_u8 i → blend e 0 i = i.
Proof.
  intros He Hi. pose proof blend_transparent_table as H.
  rewrite List.forallb_forall in H. specialize (H e (u8_values_In e He)).
  rewrite List.forallb_forall in H. specialize (H i (u8_values_In i Hi)).
  by apply Z.eqb_eq.
Qed.

(** *** Planes *)

Lemma get2_fmap {A B} (f : A → B) (rows : list (list A)) (y x : nat) :
  get2 (fmap (M:=list) f <$> rows) y x = f <$> get2 rows y x.
Proof.
  unfold get2. rewrite list_lookup_fmap.
  destruct (rows !! y) as [r|]; simpl; [|done]. by rewrite list_lookup_fmap.
Qed.

Lemma get2_zip_with {A B C} (f : A → B → C) (xs : list (list A)) (ys : list (list B))
    (y x : nat) :
  get2 (zip_with (zip_with f) xs ys) y x
  = (a ← get2 xs y x; b ← get2 ys y x; Some (f a b)).
Proof.
  unfold get2. rewrite lookup_zip_with.
  destruct (xs !! y) as [r|]; simpl; [|done].
  destruct (ys !! y) as [s|]; simpl.
  - by rewrite lookup_zip_with.
  - by destruct (r !! x).
Qed.

Lemma stretch_same {A} (n : nat) (l : list A) : stretch n n l = l.
Proof. unfold stretch. by rewrite Nat.eqb_refl. Qed.

Lemma stretch_rows_same {A} (h w : nat) (rows : list (list A)) :
  stretch h h (stretch w w <$> rows) = rows.
Proof.
  rewrite stretch_same. rewrite <- (list_fmap_id rows) at 2.
  apply list_fmap_ext. intros _ r _. apply stretch_same.
Qed.

Lemma broadcast2_same {A B C} (f : A → B → C) (x : arr2 A) (y : arr2 B) :
  a2_h y = a2_h x → a2_w y = a2_w x →
  broadcast2 f x y
  = Ok (Arr2 (a2_h x) (a2_w x) (zip_with (zip_with f) (a2_rows x) (a2_rows y))).
Proof.
  intros Hh Hw. unfold broadcast2, bdim, broadcast_to.
  rewrite Hh, Hw, !Nat.eqb_refl; simpl.
  by rewrite !stretch_rows_same.
Qed.

Lemma lift_Ok {A} (r : result A) (a : A) (σ : gmap loc ndarray) :
  r = Ok a → lift r σ = (Ok a, σ).
Proof. by intros ->. Qed.

Lemma chan_Ok (a : ndarray) (k : nat) :
  (k < nd_c a)%nat →
  chan a k = Ok (Arr2 (nd_h a) (nd_w a)
                   (fmap (M:=list) (λ p : list Z, nth k p 0) <$> nd_rows a)).
Proof. intros Hk. unfold chan. by destruct (Nat.ltb_spec k (nd_c a)); [|lia]. Qed.

Lemma nd_get_get2 (a : ndarray) (y x k : nat) :
  nd_get a y x k = (p ← get2 (nd_rows a) y x; p !! k).
Proof. unfold nd_get, get2. by destruct (nd_rows a !! y). Qed.

Lemma wf_get2 (a : ndarray) (y x : nat) :
  wf_ndarray a → (y < nd_h a)%nat → (x < nd_w a)%nat →
  ∃ p, get2 (nd_rows a) y x = Some p ∧ length p = nd_c a.
Proof.
  intros [Hh Hrows] Hy Hx. unfold get2.
  destruct (lookup_lt_is_Some_2 (nd_rows a) y) as [r Hr]; [lia|].
  eapply Forall_lookup_1 in Hrows as [Hw Hp]; [|done].
  destruct (lookup_lt_is_Some_2 r x) as [p Hpx]; [lia|].
  exists p. rewrite Hr; simpl. split; [done|].
  by eapply Forall_lookup_1 in Hp.
Qed.

Lemma nd_slice_get2 (a : ndarray) (y1 y2 x1 x2 : Z) (i j : nat) :
  wf_ndarray a →
  (i < py_slice_len (nd_h a) y1 y2)%nat →
  (j < py_slice_len (nd_w a) x1 x2)%nat →
  get2 (nd_rows (nd_slice a y1 y2 x1 x2)) i j
  = get2 (nd_rows a) (py_clip (nd_h a) y1 + i) (py_clip (nd_w a) x1 + j).
Proof.
  intros [Hh Hrows] Hi Hj. unfold get2; simpl.
  rewrite list_lookup_fmap, py_slice_lookup by (by rewrite Hh).
  rewrite Hh.
  destruct (nd_rows a !! (py_clip (nd_h a) y1 + i)%nat) as [r|] eqn:Hr; simpl; [|done].
  assert (length r = nd_w a) as Hw.
  { eapply Forall_lookup_1 in Hrows as [? _]; eauto. }
  rewrite py_slice_lookup by (by rewrite Hw). by rewrite Hw.
Qed.

Lemma nth_of_lookup (p : list Z) (k : nat) (v : Z) : p !! k = Some v → nth k p 0 = v.
Proof. intros H. by rewrite nth_lookup, H. Qed.

(** One pass of the loop of [draw_emoji], on a 120 x 120 x 4 emoji and an
    image that contains the target region and has channel [c]. *)
Lemma draw_emoji_channel_pass (emoji img : loc) (c : nat) (σ : gmap loc ndarray)
    (e i : ndarray) :
  σ !! emoji = Some e → σ !! img = Some i →
  wf_ndarray e → shape e = (120, 120, 4)%nat →
  wf_ndarray i → (470 ≤ nd_h i)%nat → (130 ≤ nd_w i)%nat →
  (c < 3)%nat → (c < nd_c i)%nat →
  ∃ i',
    draw_emoji_channel emoji img c σ = (Ok (), <[img := i']> σ)
    ∧ wf_ndarray i' ∧ shape i' = shape i
    ∧ (∀ y x k, k ≠ c → nd_get i' y x k = nd_get i y x k)
    ∧ (∀ y x, (350 ≤ y < 470)%nat → (10 ≤ x < 130)%nat →
         ∃ ec ea ic,
           nd_get e (y - 350) (x - 10) c = Some ec
           ∧ nd_get e (y - 350) (x - 10) 3 = Some ea
           ∧ nd_get i y x c = Some ic
           ∧ nd_get i' y x c = Some (blend ec ea ic)).
Proof.
  intros He Hi Hwe Hse Hwi Hh Hw Hc Hci.
  injection Hse as Heh Hew Hec.
  assert (py_slice_len (nd_h i) 350 470 = 120%nat) as Hsh
    by (rewrite py_slice_len_inside; lia).
  assert (py_slice_len (nd_w i) 10 130 = 120%nat) as Hsw
    by (rewrite py_slice_len_inside; lia).
  assert (py_clip (nd_h i) 350 = 350%nat) as Hylo by (rewrite py_clip_inside; lia).
  assert (py_clip (nd_w i) 10 = 10%nat) as Hxlo by (rewrite py_clip_inside; lia).
  pose proof (chan_Ok e c ltac:(lia)) as HEC.
  pose proof (chan_Ok e 3 ltac:(lia)) as HEA.
  pose proof (chan_Ok (nd_slice i 350 470 10 130) c ltac:(simpl; lia)) as HIC.
  rewrite Heh, Hew in HEC, HEA.
  change (nd_h (nd_slice i 350 470 10 130)) with (py_slice_len (nd_h i) 350 470) in HIC.
  change (nd_w (nd_slice i 350 470 10 130)) with (py_slice_len (nd_w i) 10 130) in HIC.
  rewrite Hsh, Hsw in HIC.
  set (EC := Arr2 120 120 _) in HEC.
  set (EA := Arr2 120 120 _) in HEA.
  set (IC := Arr2 120 120 _) in HIC.
  pose proof (broadcast2_same PrimFloat.mul (a2_map u8_to_float EC)
                (a2_map (λ a, u8_to_float a / 255)%float EA) eq_refl eq_refl) as HFG.
  pose proof (broadcast2_same PrimFloat.mul (a2_map u8_to_float IC)
                (a2_map (λ a, 1 - u8_to_float a / 255)%float EA) eq_refl eq_refl) as HBG.
  set (FG := Arr2 _ _ _) in HFG.
  set (BG := Arr2 _ _ _) in HBG.
  pose proof (broadcast2_same PrimFloat.add FG BG eq_refl eq_refl) as HS.
  set (S := Arr2 _ _ _) in HS.
  unfold draw_emoji_channel.
  rewrite (bind_Ok _ _ _ _ _ (deref_Some _ _ _ He)).
  rewrite (bind_Ok _ _ _ _ _ (lift_Ok _ _ _ HEC)).
  rewrite (bind_Ok _ _ _ _ _ (lift_Ok _ _ _ HEA)).
  rewrite (bind_Ok _ _ _ _ _ (lift_Ok _ _ _ HFG)).
  rewrite (bind_Ok _ _ _ _ _ (deref_Some _ _ _ Hi)).
  rewrite (bind_Ok _ _ _ _ _ (lift_Ok _ _ _ HIC)).
  rewrite (bind_Ok _ _ _ _ _ (lift_Ok _ _ _ HEA)).
  rewrite (bind_Ok _ _ _ _ _ (lift_Ok _ _ _ HBG)).
  rewrite (bind_Ok _ _ _ _ _ (lift_Ok _ _ _ HS)).
  unfold set_region. rewrite Hsh, Hsw, Hylo, Hxlo.
  destruct (Nat.ltb_spec c (nd_c i)) as [_|]; [|lia].
  change (can_assign (a2_h (a2_map float_to_u8 S)) 120
          && can_assign (a2_w (a2_map float_to_u8 S)) 120) with true.
  cbv iota. cbn [negb].
  set (V := broadcast_to 120 120 (a2_map float_to_u8 S)).
  eexists. split; [reflexivity|].
  destruct Hwi as [Hih Hirows].
  split; [|split; [done|split]].
  - split; simpl; [by rewrite length_imap|].
    apply Forall_lookup. intros y r. rewrite list_lookup_imap.
    destruct (nd_rows i !! y) as [r0|] eqn:Hr0; simpl; [|done].
    eapply Forall_lookup_1 in Hirows as [Hrw Hrp]; [|done].
    intros [= <-]. destruct (in_range 350 120 y); [|done].
    split; [by rewrite length_imap|].
    apply Forall_lookup. intros x p. rewrite list_lookup_imap.
    destruct (r0 !! x) as [p0|] eqn:Hp0; simpl; [|done].
    eapply Forall_lookup_1 in Hrp; [|done].
    intros [= <-]. destruct (in_range 10 120 x); [|done].
    by rewrite length_insert.
  - intros y x k Hk. unfold nd_get; simpl. rewrite list_lookup_imap.
    destruct (nd_rows i !! y) as [r0|]; simpl; [|done].
    destruct (in_range 350 120 y); [|done].
    rewrite list_lookup_imap.
    destruct (r0 !! x) as [p0|]; simpl; [|done].
    destruct (in_range 10 120 x); [|done].
    by rewrite list_lookup_insert_ne.
  - intros y x Hy Hx.
    destruct (wf_get2 e (y - 350) (x - 10) Hwe) as (pe & Hpe & Hpel); [lia..|].
    destruct (wf_get2 i y x (conj Hih Hirows)) as (pi & Hpi & Hpil); [lia..|].
    destruct (lookup_lt_is_Some_2 pe c) as [ec Hec']; [lia|].
    destruct (lookup_lt_is_Some_2 pe 3) as [ea Hea']; [lia|].
    destruct (lookup_lt_is_Some_2 pi c) as [ic Hic']; [lia|].
    exists ec, ea, ic.
    rewrite !nd_get_get2, Hpe, Hpi; simpl.
    split; [done|]. split; [done|]. split; [done|].
    assert (a2_get V (y - 350) (x - 10) = blend ec ea ic) as HV.
    { unfold a2_get, V, broadcast_to.
      change (a2_h (a2_map float_to_u8 S)) with 120%nat.
      change (a2_w (a2_map float_to_u8 S)) with 120%nat.
      cbn [a2_rows]. rewrite stretch_rows_same.
      change (default 0 (get2 (fmap (M:=list) float_to_u8 <$> a2_rows S)
                           (y - 350) (x - 10)) = blend ec ea ic).
      rewrite get2_fmap. unfold S, FG, BG, a2_map; cbn [a2_rows].
      rewrite !get2_zip_with, !get2_fmap.
      unfold EC, EA, IC; cbn [a2_rows]. rewrite !get2_fmap.
      rewrite nd_slice_get2 by (rewrite ?Hsh, ?Hsw; first [done | lia]).
      rewrite Hylo, Hxlo.
      replace (350 + (y - 350))%nat with y by lia.
      replace (10 + (x - 10))%nat with x by lia.
      rewrite Hpe, Hpi; simpl.
      by rewrite (nth_of_lookup _ _ _ Hec'), (nth_of_lookup _ _ _ Hea'),
                 (nth_of_lookup _ _ _ Hic'). }
    assert (in_range 350 120 y = true) as Hry.
    { unfold in_range. apply andb_true_iff.
      split; [apply Nat.leb_le|apply Nat.ltb_lt]; lia. }
    assert (in_range 10 120 x = true) as Hrx.
    { unfold in_range. apply andb_true_iff.
      split; [apply Nat.leb_le|apply Nat.ltb_lt]; lia. }
    unfold get2. rewrite list_lookup_imap.
    unfold get2 in Hpi.
    destruct (nd_rows i !! y) as [r0|]; [|done].
    cbn [fmap option_fmap option_map mbind option_bind] in *.
    rewrite Hry, list_lookup_imap, Hpi.
    cbn [fmap option_fmap option_map mbind option_bind].
    rewrite Hrx, HV. apply list_lookup_insert_eq. lia.
Qed.

(** One pass of the loop of [draw_emoji], on a 120 x 120 x 4 emoji and an
    image that contains the target region. *)
Lemma draw_emoji_channel_run (emoji img : loc) (c : nat) (σ : gmap loc ndarray)
    (e i : ndarray) :
  σ !! emoji = Some e → σ !! img = Some i →
  wf_ndarray e → shape e = (120, 120, 4)%nat →
  wf_ndarray i → (470 ≤ nd_h i)%nat → (130 ≤ nd_w i)%nat →
  (c < 3)%nat → (3 ≤ nd_c i)%nat →
  ∃ i',
    draw_emoji_channel emoji img c σ = (Ok (), <[img := i']> σ)
    ∧ wf_ndarray i' ∧ shape i' = shape i
    ∧ (∀ y x k, k ≠ c → nd_get i' y x k = nd_get i y x k)
    ∧ (∀ y x, (350 ≤ y < 470)%nat → (10 ≤ x < 130)%nat →
         ∃ ec ea ic,
           nd_get e (y - 350) (x - 10) c = Some ec
           ∧ nd_get e (y - 350) (x - 10) 3 = Some ea
           ∧ nd_get i y x c = Some ic
           ∧ nd_get i' y x c = Some (blend ec ea ic)).
Proof.
  intros He Hi Hwe Hse Hwi Hh Hw Hc Hci.
  apply draw_emoji_channel_pass; [done..|lia].
Qed.

Lemma uint8_array_get (a : ndarray) (y x k : nat) (v : Z) :
  uint8_array a → nd_get a y x k = Some v → is_u8 v.
Proof.
  unfold uint8_array, nd_get. intros Ha Hv.
  destruct (nd_rows a !! y) as [r|] eqn:Hr; simpl in Hv; [|done].
  destruct (r !! x) as [p|] eqn:Hp; simpl in Hv; [|done].
  eapply Forall_lookup_1 in Ha; [|done].
  eapply Forall_lookup_1 in Ha; [|done].
  by eapply Forall_lookup_1 in Ha.
Qed.

(** C4.  On an image of at least 470 rows and 130 columns and a
    120 x 120 emoji with four channels, [draw_emoji] returns the image it
    was given, in which every sample of the three colour channels in rows
    350..469 and columns 10..129 is
    [emoji * (alpha / 255.0) + image * (1.0 - alpha / 255.0)], computed in
    float64 and stored as uint8.  Where alpha is 255 the sample is the
    emoji's, where alpha is 0 it is the image's own. *)
Theorem draw_emoji_blend (emoji img : loc) (σ : gmap loc ndarray) (e i : ndarray) :
  σ !! emoji = Some e → σ !! img = Some i →
  wf_ndarray e → uint8_array e → shape e = (120, 120, 4)%nat →
  wf_ndarray i → uint8_array i →
  (470 ≤ nd_h i)%nat → (130 ≤ nd_w i)%nat → (3 ≤ nd_c i)%nat →
  ∃ out σ',
    draw_emoji emoji img σ = (Ok img, σ')
    ∧ σ' !! img = Some out
    ∧ shape out = shape i
    ∧ ∀ y x c : nat,
        (350 ≤ y < 470)%nat → (10 ≤ x < 130)%nat → (c < 3)%nat →
        ∃ ec ea ic,
          nd_get e (y - 350) (x - 10) c = Some ec
          ∧ nd_get e (y - 350) (x - 10) 3 = Some ea
          ∧ nd_get i y x c = Some ic
          ∧ nd_get out y x c = Some (blend ec ea ic)
          ∧ (ea = 255 → nd_get out y x c = Some ec)
          ∧ (ea = 0 → nd_get out y x c = Some ic).
Proof.
  intros He Hi Hwe Hue Hse Hwi Hui Hh Hw Hc.
  assert (emoji ≠ img) as Hne.
  { intros ->. rewrite He in Hi. injection Hi as ->.
    injection Hse as Heh _ _. lia. }
  destruct (draw_emoji_channel_run emoji img 0 σ e i)
    as (i0 & Hrun0 & Hw0 & Hs0 & Hk0 & Hb0); [done..|lia|done|].
  injection Hs0 as Hh0 Hw0' Hc0.
  destruct (draw_emoji_channel_run emoji img 1 (<[img := i0]> σ) e i0)
    as (i1 & Hrun1 & Hw1 & Hs1 & Hk1 & Hb1);
    [by rewrite lookup_insert_ne|apply lookup_insert_eq|done..|lia|lia|lia|lia|].
  rewrite insert_insert_eq in Hrun1.
  injection Hs1 as Hh1 Hw1' Hc1.
  destruct (draw_emoji_channel_run emoji img 2 (<[img := i1]> σ) e i1)
    as (i2 & Hrun2 & Hw2 & Hs2 & Hk2 & Hb2);
    [by rewrite lookup_insert_ne|apply lookup_insert_eq|done..|lia|lia|lia|lia|].
  rewrite insert_insert_eq in Hrun2.
  exists i2, (<[img := i2]> σ). split.
  { unfold draw_emoji, for_each.
    rewrite (bind_Ok _ _ _ _ _
               (eq_trans (bind_Ok _ _ _ _ _ Hrun0)
                  (eq_trans (bind_Ok _ _ _ _ _ Hrun1)
                     (eq_trans (bind_Ok _ _ _ _ _ Hrun2) eq_refl)))).
    done. }
  split; [apply lookup_insert_eq|].
  split; [unfold shape in *; congruence|].
  intros y x c Hy Hx Hcc.
  assert (∃ ec ea ic,
            nd_get e (y - 350) (x - 10) c = Some ec
            ∧ nd_get e (y - 350) (x - 10) 3 = Some ea
            ∧ nd_get i y x c = Some ic
            ∧ nd_get i2 y x c = Some (blend ec ea ic))
    as (ec & ea & ic & Hec & Hea & Hic & Hout).
  { destruct c as [|[|[|]]]; [| | |lia].
    - destruct (Hb0 y x Hy Hx) as (ec & ea & ic & ? & ? & ? & ?).
      exists ec, ea, ic. by rewrite Hk2, Hk1 by lia.
    - destruct (Hb1 y x Hy Hx) as (ec & ea & ic & ? & ? & Hic & ?).
      exists ec, ea, ic. rewrite Hk0 in Hic by lia. by rewrite Hk2 by lia.
    - destruct (Hb2 y x Hy Hx) as (ec & ea & ic & ? & ? & Hic & ?).
      exists ec, ea, ic. by rewrite Hk1, Hk0 in Hic by lia. }
  exists ec, ea, ic. repeat (split; [done|]).
  pose proof (uint8_array_get _ _ _ _ _ Hue Hec) as Huec.
  pose proof (uint8_array_get _ _ _ _ _ Hui Hic) as Huic.
  split; intros ->; rewrite Hout; f_equal.
  - by apply blend_opaque.
  - by apply blend_transparent.
Qed.

(** ** Constant images *)

Lemma np_full_wf (h w : nat) (p : list Z) : wf_ndarray (np_full h w p).
Proof.
  split; simpl; [apply length_replicate|].
  apply Forall_replicate. split; [apply length_replicate|].
  by apply Forall_replicate.
Qed.

Lemma np_full_uint8 (h w : nat) (p : list Z) :
  Forall is_u8 p → uint8_array (np_full h w p).
Proof. intros Hp. by do 2 apply Forall_replicate. Qed.

Lemma np_full_get (h w : nat) (p : list Z) (y x k : nat) :
  (y < h)%nat → (x < w)%nat → nd_get (np_full h w p) y x k = p !! k.
Proof.
  intros Hy Hx. unfold nd_get; simpl.
  rewrite lookup_replicate_2 by done; simpl.
  by rewrite lookup_replicate_2 by done.
Qed.

(** * Further properties *)

(** ** Region extraction: what the bounding box may be *)

(** X1.  With an image, [get_facial_ROI] raises [IndexError] exactly when
    the bounding box has fewer than four entries; with four or more it
    returns the slice given by the first four and ignores the rest. *)
Theorem get_facial_ROI_bbox_length (a : ndarray) (b : list Z) :
  (get_facial_ROI (Some a) (Some b) = Raise IndexError ↔ (length b < 4)%nat)
  ∧ ((4 ≤ length b)%nat →
     ∃ x1 y1 x2 y2 rest,
       b = x1 :: y1 :: x2 :: y2 :: rest
       ∧ get_facial_ROI (Some a) (Some b) = Ok (nd_slice a y1 y2 x1 x2)).
Proof.
  destruct b as [|x1 [|y1 [|x2 [|y2 rest]]]]; simpl;
    (split; [split; [try done; intros _; lia| try done; intros; lia]|]);
    try (intros; lia).
  intros _. by exists x1, y1, x2, y2, rest.
Qed.

(** X2.  Whatever the coordinates, the region returned for a well-formed
    image is a well-formed array with the image's channel count, no taller
    and no wider than the image: coordinates outside the image are clipped,
    never rejected. *)
Theorem get_facial_ROI_within_image (a : ndarray) (b : list Z) (roi : ndarray) :
  wf_ndarray a →
  get_facial_ROI (Some a) (Some b) = Ok roi →
  wf_ndarray roi
  ∧ (nd_h roi ≤ nd_h a)%nat ∧ (nd_w roi ≤ nd_w a)%nat ∧ nd_c roi = nd_c a.
Proof.
  intros Hwf Hroi.
  destruct b as [|x1 [|y1 [|x2 [|y2 rest]]]]; try done.
  injection Hroi as <-. split; [by apply nd_slice_wf|].
  simpl. unfold py_slice_len, py_clip.
  repeat split;
    repeat match goal with |- context [Z.ltb ?x ?y] => destruct (Z.ltb_spec x y) end;
    lia.
Qed.

Lemma py_slice_len_inverted (n : nat) (lo hi : Z) :
  0 ≤ hi ≤ lo → py_slice_len n lo hi = 0%nat.
Proof.
  intros H. unfold py_slice_len, py_clip.
  destruct (Z.ltb_spec hi 0), (Z.ltb_spec lo 0); lia.
Qed.

(** X3.  A box whose right edge is not to the right of its left edge, or
    whose bottom is not below its top (coordinates not negative), gives an
    empty region, not an error. *)
Theorem get_facial_ROI_inverted_box (a : ndarray) (x1 y1 x2 y2 : Z) :
  (0 ≤ x2 ≤ x1 ∨ 0 ≤ y2 ≤ y1) →
  ∃ roi,
    get_facial_ROI (Some a) (Some [x1; y1; x2; y2]) = Ok roi
    ∧ nd_size roi = 0%nat.
Proof.
  intros Hbox. eexists. split; [reflexivity|].
  unfold nd_size; simpl.
  destruct Hbox as [Hx|Hy].
  - rewrite (py_slice_len_inverted (nd_w a) x1 x2) by done. lia.
  - by rewrite (py_slice_len_inverted (nd_h a) y1 y2) by done.
Qed.

Lemma py_clip_wrap (n : nat) (k : Z) :
  0 ≤ k < Z.of_nat n → py_clip n (k - Z.of_nat n) = py_clip n k.
Proof.
  intros Hk. unfold py_clip.
  destruct (Z.ltb_spec (k - Z.of_nat n) 0), (Z.ltb_spec k 0); lia.
Qed.

(** X4.  Negative coordinates count from the far edge: shifting the four
    coordinates of a box inside the image by minus the width, respectively
    minus the height, selects the same region. *)
Theorem get_facial_ROI_negative_coordinates (a : ndarray) (x1 y1 x2 y2 : Z) :
  wf_ndarray a →
  0 ≤ x1 < Z.of_nat (nd_w a) → 0 ≤ x2 < Z.of_nat (nd_w a) →
  0 ≤ y1 < Z.of_nat (nd_h a) → 0 ≤ y2 < Z.of_nat (nd_h a) →
  get_facial_ROI (Some a)
    (Some [x1 - Z.of_nat (nd_w a); y1 - Z.of_nat (nd_h a);
           x2 - Z.of_nat (nd_w a); y2 - Z.of_nat (nd_h a)])
  = get_facial_ROI (Some a) (Some [x1; y1; x2; y2]).
Proof.
  intros [Hh Hrows] Hx1 Hx2 Hy1 Hy2. simpl. f_equal.
  unfold nd_slice, py_slice_len. rewrite !py_clip_wrap by done. f_equal.
  unfold py_slice, py_slice_len. rewrite Hh, !py_clip_wrap by done.
  apply Forall_fmap_ext, Forall_take, Forall_drop.
  eapply Forall_impl; [exact Hrows|]. intros r [Hw _]. simpl.
  by rewrite Hw, !py_clip_wrap.
Qed.

(** ** Region extraction: a region of a region *)

Lemma py_slice_inside {A} (l : list A) (lo hi : Z) :
  0 ≤ lo → lo ≤ hi → hi ≤ Z.of_nat (length l) →
  py_slice lo hi l = take (Z.to_nat (hi - lo)) (drop (Z.to_nat lo) l).
Proof.
  intros. unfold py_slice.
  by rewrite py_slice_len_inside, py_clip_inside by lia.
Qed.

Lemma py_slice_py_slice {A} (l : list A) (lo hi a b : Z) :
  0 ≤ lo → lo ≤ hi → hi ≤ Z.of_nat (length l) →
  0 ≤ a → a ≤ b → b ≤ hi - lo →
  py_slice a b (py_slice lo hi l) = py_slice (lo + a) (lo + b) l.
Proof.
  intros Hlo Hhi Hlen Ha Hb Hbhi.
  rewrite (py_slice_inside l lo hi) by lia.
  rewrite (py_slice_inside l (lo + a) (lo + b)) by lia.
  rewrite py_slice_inside by (rewrite ?length_take, ?length_drop; lia).
  apply list_eq. intros i.
  replace (lo + b - (lo + a)) with (b - a) by lia.
  destruct (decide (i < Z.to_nat (b - a))%nat) as [Hi|Hi].
  - rewrite !lookup_take_lt, !lookup_drop by lia.
    rewrite lookup_take_lt, lookup_drop by lia. f_equal. lia.
  - by rewrite !lookup_take_ge by lia.
Qed.

Lemma py_slice_fmap {A B} (f : A → B) (l : list A) (lo hi : Z) :
  py_slice lo hi (f <$> l) = f <$> py_slice lo hi l.
Proof. unfold py_slice. by rewrite length_fmap, fmap_take, fmap_drop. Qed.

(** X5.  Extracting a region from an extracted region is extracting the
    inner box, translated by the outer box's corner, from the image: for
    boxes inside their arrays the two results are the same array. *)
Theorem get_facial_ROI_nested (a roi : ndarray) (x1 y1 x2 y2 u1 v1 u2 v2 : Z) :
  wf_ndarray a →
  0 ≤ x1 → x1 ≤ x2 → x2 ≤ Z.of_nat (nd_w a) →
  0 ≤ y1 → y1 ≤ y2 → y2 ≤ Z.of_nat (nd_h a) →
  0 ≤ u1 → u1 ≤ u2 → u2 ≤ x2 - x1 →
  0 ≤ v1 → v1 ≤ v2 → v2 ≤ y2 - y1 →
  get_facial_ROI (Some a) (Some [x1; y1; x2; y2]) = Ok roi →
  get_facial_ROI (Some roi) (Some [u1; v1; u2; v2])
  = get_facial_ROI (Some a) (Some [x1 + u1; y1 + v1; x1 + u2; y1 + v2]).
Proof.
  intros [Hh Hrows] Hx1 Hx Hx2 Hy1 Hy Hy2 Hu1 Hu Hu2 Hv1 Hv Hv2 Hroi.
  injection Hroi as <-. simpl. f_equal. unfold nd_slice; simpl.
  rewrite (py_slice_len_inside (nd_h a) y1 y2), (py_slice_len_inside (nd_w a) x1 x2)
    by lia.
  rewrite !py_slice_len_inside by lia.
  f_equal; [f_equal; lia..|].
  rewrite py_slice_fmap, py_slice_py_slice by lia.
  rewrite <- list_fmap_compose.
  apply Forall_fmap_ext, py_slice_Forall.
  eapply Forall_impl; [exact Hrows|]. intros r [Hw _]. simpl.
  apply py_slice_py_slice; lia.
Qed.

(** ** Colour conversion applied twice *)

(** X6.  Converting a valid three-channel image twice with
    [convert_to_rgb] gives the image back: both calls succeed and the
    second result is the original array. *)
Theorem convert_to_rgb_twice (a : ndarray) :
  wf_ndarray a → is_valid_img (Some a) = true → nd_c a = 3%nat →
  ∃ rgb,
    convert_to_rgb (Some a) = Ok rgb
    ∧ convert_to_rgb (Some rgb) = Ok a.
Proof.
  intros [Hh Hrows] Hvalid Hc.
  unfold convert_to_rgb at 1. rewrite Hvalid.
  apply negb_true_iff in Hvalid.
  destruct a as [h w c rows]; simpl in *; subst c.
  eexists. split; [unfold cvtColor_BGR2RGB; simpl; by rewrite Hvalid|].
  unfold convert_to_rgb, is_valid_img, cvtColor_BGR2RGB, nd_size in *; simpl in *.
  rewrite Hvalid; simpl.
  by rewrite (swap_rb_rows_involutive w).
Qed.

(** ** Bounding boxes *)

(** X7.  [convert_to_dlib_rectangle] succeeds exactly on lists of at least
    four entries, and then the rectangle's left, top, right and bottom are
    the first four entries in that order; on a shorter list it raises
    [IndexError]. *)
Theorem convert_to_dlib_rectangle_length (bbox : list Z) :
  ((length bbox < 4)%nat → convert_to_dlib_rectangle bbox = Raise IndexError)
  ∧ (∀ r, convert_to_dlib_rectangle bbox = Ok r →
       (4 ≤ length bbox)%nat
       ∧ bbox !! 0%nat = Some (rect_left r) ∧ bbox !! 1%nat = Some (rect_top r)
       ∧ bbox !! 2%nat = Some (rect_right r) ∧ bbox !! 3%nat = Some (rect_bottom r)).
Proof.
  destruct bbox as [|l [|t [|r [|b rest]]]]; simpl;
    (split; [try done; intros; lia|]); try done.
  intros r' [= <-]. simpl. repeat split; lia.
Qed.

(** X8.  [draw_bounding_box] and [draw_bounding_box_annotation] unpack
    exactly four coordinates: on a list of any other length, including the
    longer lists that [convert_to_dlib_rectangle] accepts, they raise
    [ValueError] and draw nothing. *)
Theorem draw_bounding_box_needs_four (image : loc) (label : string)
    (bbox color : list Z) (σ : gmap loc ndarray) :
  length bbox ≠ 4%nat →
  draw_bounding_box image bbox color σ = (Raise ValueError, σ)
  ∧ draw_bounding_box_annotation image label bbox color σ = (Raise ValueError, σ).
Proof.
  intros Hlen.
  assert (unpack4 bbox = Raise ValueError) as Hun.
  { by destruct bbox as [|x1 [|y1 [|x2 [|y2 [|]]]]]. }
  unfold draw_bounding_box, draw_bounding_box_annotation.
  unfold lift, mbind, M_bind. by rewrite Hun.
Qed.


(** ** Emotion chart: exactly the bars *)

Lemma draw_bars_get (d : list (string * Z)) (entries : list (nat * string))
    (a : ndarray) (y x k : nat) :
  nd_get (draw_bars d a entries) y x k
  = if in_some_bar d entries y x
    then _ ← nd_get a y x k; Some (scalar_sample [255; 0; 0] k)
    else nd_get a y x k.
Proof.
  revert a. induction entries as [|e entries IH]; intros a; [done|].
  change (draw_bars d a (e :: entries)) with (draw_bars d (bar_of d a e) entries).
  rewrite IH. unfold in_some_bar; simpl. fold (in_some_bar d entries y x).
  unfold bar_of. destruct (dict_get d e.2) as [v|]; simpl; [|done].
  rewrite fill_rect_get. unfold in_bar; simpl.
  destruct (in_span _ _ y && in_span _ _ x); simpl; [|done].
  destruct (in_some_bar d entries y x); [|done].
  by destruct (nd_get a y x k).
Qed.

Lemma dict_get_value (d : list (string * Z)) (k : string) (v : Z) :
  dict_get d k = Ok v → (k, v) ∈ d.
Proof.
  induction d as [|[k' v'] d IH]; simpl; [done|].
  destruct (String.eqb_spec k' k) as [->|_].
  - intros [= ->]. apply elem_of_cons. by left.
  - intros H. apply elem_of_cons. right. by apply IH.
Qed.

Lemma in_some_bar_outside (d : list (string * Z)) (y x : nat) :
  (y < 20 ∨ y `mod` 20 = 19 ∨ 20 * length d + 19 ≤ y
   ∨ (x < 100 ∧ Forall (λ kv : string * Z, (0 ≤ kv.2)%Z) d))%nat →
  in_some_bar d (enumerate (dict_keys d)) y x = false.
Proof.
  intros Hout.
  destruct (in_some_bar d (enumerate (dict_keys d)) y x) eqn:Hin; [|done].
  exfalso. unfold in_some_bar in Hin.
  apply existsb_exists in Hin as ([i key] & He & Hbar). simpl in Hbar.
  apply list_elem_of_In, list_elem_of_lookup in He as [j Hj].
  apply enumerate_lookup in Hj as [<- Hkey]. simpl in Hkey.
  apply lookup_lt_Some in Hkey as Hlt.
  unfold dict_keys in Hlt. rewrite length_fmap in Hlt.
  destruct (dict_get d key) as [v|] eqn:Hv; [|done].
  unfold in_bar, in_span, bar_corners in Hbar; simpl in Hbar.
  rewrite !andb_true_iff, !Z.leb_le in Hbar.
  destruct Hout as [Hy|[Hy|[Hy|[Hx Hpos]]]]; [lia| |lia|].
  - pose proof (Nat.div_mod_eq y 20). lia.
  - apply dict_get_value in Hv.
    eapply Forall_forall in Hpos; [|done]. simpl in Hpos. lia.
Qed.

(** X10.  In the caller's array [annotate_emotion_stats] changes nothing
    outside the bars: the rows above row 20, the row between two bars, the
    rows below the last bar and, when no confidence is negative, the
    columns left of column 100 keep their samples. *)
Theorem annotate_emotion_stats_outside_bars (d : list (string * Z)) (img : loc)
    (σ σ' : gmap loc ndarray) (a : ndarray) (r : result loc) :
  σ !! img = Some a → (nd_c a ≤ 4)%nat →
  annotate_emotion_stats d img σ = (r, σ') →
  ∃ a',
    σ' !! img = Some a'
    ∧ ∀ y x k : nat,
        (y < 20 ∨ y `mod` 20 = 19 ∨ 20 * length d + 19 ≤ y
         ∨ (x < 100 ∧ Forall (λ kv : string * Z, (0 ≤ kv.2)%Z) d))%nat →
        nd_get a' y x k = nd_get a y x k.
Proof.
  intros Himg Hc Hrun.
  destruct (annotate_emotion_stats_run d img σ a Himg Hc)
    as (r0 & σ0 & Hrun0 & Hbars & _).
  rewrite Hrun in Hrun0. injection Hrun0 as <- <-.
  eexists. split; [exact Hbars|].
  intros y x k Hout. by rewrite draw_bars_get, in_some_bar_outside.
Qed.

(** X11.  Calling [annotate_emotion_stats] again with the same mapping on
    the array it has already drawn on leaves every sample of that array as
    the first call left it. *)
Theorem annotate_emotion_stats_twice (d : list (string * Z)) (img : loc)
    (σ σ1 σ2 : gmap loc ndarray) (a : ndarray) (r1 r2 : result loc) :
  σ !! img = Some a → (nd_c a ≤ 4)%nat →
  annotate_emotion_stats d img σ = (r1, σ1) →
  annotate_emotion_stats d img σ1 = (r2, σ2) →
  ∃ a1 a2,
    σ1 !! img = Some a1 ∧ σ2 !! img = Some a2
    ∧ shape a2 = shape a1
    ∧ ∀ y x k : nat, nd_get a2 y x k = nd_get a1 y x k.
Proof.
  intros Himg Hc Hrun1 Hrun2.
  destruct (annotate_emotion_stats_run d img σ a Himg Hc)
    as (r & σ0 & Hrun & Hbars & _).
  rewrite Hrun1 in Hrun. injection Hrun as <- <-.
  assert (nd_c (draw_bars d a (enumerate (dict_keys d))) ≤ 4)%nat as Hc1.
  { pose proof (draw_bars_channels d (enumerate (dict_keys d)) a) as Hs.
    injection Hs as _ _ ->. done. }
  destruct (annotate_emotion_stats_run d img σ1 _ Hbars Hc1)
    as (r & σ0 & Hrun & Hbars2 & _).
  rewrite Hrun2 in Hrun. injection Hrun as <- <-.
  eexists _, _. split; [exact Hbars|]. split; [exact Hbars2|].
  split; [apply draw_bars_channels|].
  intros y x k. rewrite !draw_bars_get.
  destruct (in_some_bar d _ y x); [|done].
  by destruct (nd_get a y x k).
Qed.

(** X12.  With an empty mapping [annotate_emotion_stats] draws no bar and
    no text: the caller's array and every other array are unchanged, and
    the result is a new array made from the picture of an unmodified copy,
    for an image of any channel count. *)
Theorem annotate_emotion_stats_empty (img : loc) (σ : gmap loc ndarray) (a : ndarray) :
  σ !! img = Some a →
  ∃ r σ',
    annotate_emotion_stats [] img σ = (r, σ')
    ∧ (∀ l b, σ !! l = Some b → σ' !! l = Some b)
    ∧ match r with
      | Ok out =>
          σ !! out = None
          ∧ ∃ p, Image_fromarray a = Ok p ∧ σ' !! out = Some (np_array p)
      | Raise exc => Image_fromarray a = Raise exc
      end.
Proof.
  intros Himg.
  assert (∀ l b, σ !! l = Some b → <[fresh (dom σ) := a]> σ !! l = Some b) as Hkeep.
  { intros l b Hl. rewrite lookup_insert_ne; [done|].
    apply not_eq_sym. by eapply allocated_not_fresh. }
  set (σ1 := <[fresh (dom σ) := a]> σ) in *.
  assert (σ1 !! fresh (dom σ) = Some a) as Hc by apply lookup_insert_eq.
  unfold annotate_emotion_stats. simpl.
  rewrite (bind_Ok _ _ _ _ _ (eq_refl : (mret () : M ()) σ = (Ok (), σ))).
  rewrite (bind_Ok _ _ _ _ _ (np_copy_Some _ _ _ Himg)). fold σ1.
  rewrite (bind_Ok _ _ _ _ _ (deref_Some _ _ _ Hc)).
  unfold lift, mbind, M_bind, alloc.
  destruct (Image_fromarray a) as [p|e]; simpl; [|by eauto].
  assert (∀ l b, σ !! l = Some b → fresh (dom σ1) ≠ l) as Hl2.
  { intros l b Hl. apply not_eq_sym. eapply allocated_not_fresh, Hkeep, Hl. }
  eexists _, _. split; [done|].
  split; [by intros l b Hl; rewrite lookup_insert_ne; eauto|].
  split.
  { destruct (σ !! fresh (dom σ1)) as [b|] eqn:Hb; [|done].
    by destruct (Hl2 _ _ Hb). }
  exists p. split; [done|]. apply lookup_insert_eq.
Qed.

(** ** Emoji overlay: what is left alone *)








(** ** Emoji overlay: arrays it cannot combine *)

(** X14.  An emoji without a fourth (alpha) channel makes [draw_emoji]
    raise [IndexError] before anything is written: the store is as it
    was. *)
Theorem draw_emoji_no_alpha (emoji img : loc) (σ : gmap loc ndarray) (e : ndarray) :
  σ !! emoji = Some e → (nd_c e < 4)%nat →
  draw_emoji emoji img σ = (Raise IndexError, σ).
Proof.
  intros He Hc.
  assert (draw_emoji_channel emoji img 0 σ = (Raise IndexError, σ)) as H0.
  { unfold draw_emoji_channel.
    rewrite (bind_Ok _ _ _ _ _ (deref_Some _ _ _ He)).
    unfold chan, lift, mbind, M_bind.
    destruct (Nat.ltb_spec 0 (nd_c e)); [|done].
    by destruct (Nat.ltb_spec 3 (nd_c e)); [lia|]. }
  unfold draw_emoji, for_each. unfold mbind at 1 2, M_bind at 1 2.
  by rewrite H0.
Qed.

Lemma broadcast2_Raise {A B C} (f : A → B → C) (x : arr2 A) (y : arr2 B) (exc : exn) :
  broadcast2 f x y = Raise exc → exc = ValueError.
Proof.
  unfold broadcast2, bdim, mbind, result_bind.
  repeat match goal with
         | |- context [Nat.eqb ?n ?m] => destruct (Nat.eqb n m)
         end; congruence.
Qed.

Lemma broadcast2_Ok_120 {A B C} (f : A → B → C) (x : arr2 A) (y : arr2 B) (z : arr2 C) :
  a2_h y = 120%nat → a2_w y = 120%nat →
  broadcast2 f x y = Ok z → a2_h z = 120%nat ∧ a2_w z = 120%nat.
Proof.
  intros Hh Hw. unfold broadcast2, bdim, mbind, result_bind. rewrite Hh, Hw.
  destruct (Nat.eqb_spec (a2_h x) 120), (Nat.eqb_spec (a2_h x) 1),
    (Nat.eqb_spec (a2_w x) 120), (Nat.eqb_spec (a2_w x) 1);
    simpl; intros [= <-]; simpl; lia.
Qed.

Lemma set_region_misfit (a : ndarray) (y1 y2 x1 x2 : Z) (c : nat) (v : arr2 Z) :
  a2_h v = 120%nat → a2_w v = 120%nat →
  (py_slice_len (nd_h a) y1 y2 ≠ 120 ∨ py_slice_len (nd_w a) x1 x2 ≠ 120)%nat →
  (c < nd_c a)%nat →
  set_region a y1 y2 x1 x2 c v = Raise ValueError.
Proof.
  intros Hh Hw Hmis Hc. unfold set_region, can_assign. rewrite Hh, Hw.
  destruct (Nat.ltb_spec c (nd_c a)); [|lia].
  destruct (Nat.eqb_spec 120 (py_slice_len (nd_h a) y1 y2)),
    (Nat.eqb_spec 120 (py_slice_len (nd_w a) x1 x2)); simpl; try done; lia.
Qed.

(** X15.  When the image has fewer than 470 rows or fewer than 130
    columns, a 120 x 120 emoji does not fit the clipped region:
    [draw_emoji] raises [ValueError] (the shapes cannot be broadcast) and
    the image is not modified. *)
Theorem draw_emoji_small_image (emoji img : loc) (σ : gmap loc ndarray)
    (e i : ndarray) :
  σ !! emoji = Some e → σ !! img = Some i →
  shape e = (120, 120, 4)%nat → (1 ≤ nd_c i)%nat →
  (nd_h i < 470 ∨ nd_w i < 130)%nat →
  draw_emoji emoji img σ = (Raise ValueError, σ).
Proof.
  intros He Hi Hse Hci Hsmall.
  injection Hse as Heh Hew Hec.
  pose proof (chan_Ok e 0 ltac:(lia)) as HEC.
  pose proof (chan_Ok e 3 ltac:(lia)) as HEA.
  pose proof (chan_Ok (nd_slice i 350 470 10 130) 0 ltac:(simpl; lia)) as HIC.
  rewrite Heh, Hew in HEC, HEA.
  set (EC := Arr2 120 120 _) in HEC.
  set (EA := Arr2 120 120 _) in HEA.
  set (IC := Arr2 _ _ _) in HIC.
  pose proof (broadcast2_same PrimFloat.mul (a2_map u8_to_float EC)
                (a2_map (λ a, u8_to_float a / 255)%float EA) eq_refl eq_refl) as HFG.
  set (FG := Arr2 _ _ _) in HFG.
  assert (draw_emoji_channel emoji img 0 σ = (Raise ValueError, σ)) as H0.
  { unfold draw_emoji_channel.
    rewrite (bind_Ok _ _ _ _ _ (deref_Some _ _ _ He)).
    rewrite (bind_Ok _ _ _ _ _ (lift_Ok _ _ _ HEC)).
    rewrite (bind_Ok _ _ _ _ _ (lift_Ok _ _ _ HEA)).
    rewrite (bind_Ok _ _ _ _ _ (lift_Ok _ _ _ HFG)).
    rewrite (bind_Ok _ _ _ _ _ (deref_Some _ _ _ Hi)).
    rewrite (bind_Ok _ _ _ _ _ (lift_Ok _ _ _ HIC)).
    rewrite (bind_Ok _ _ _ _ _ (lift_Ok _ _ _ HEA)).
    destruct (broadcast2 PrimFloat.mul (a2_map u8_to_float IC) _) as [bg|exc] eqn:HBG.
    - apply broadcast2_Ok_120 in HBG as [Hbh Hbw]; [|done..].
      rewrite (bind_Ok _ _ _ _ _ (lift_Ok (Ok bg) bg _ eq_refl)).
      assert (broadcast2 PrimFloat.add FG bg
              = Ok (Arr2 120 120 (zip_with (zip_with PrimFloat.add)
                                   (a2_rows FG) (a2_rows bg)))) as HS.
      { by rewrite broadcast2_same. }
      rewrite (bind_Ok _ _ _ _ _ (lift_Ok _ _ _ HS)).
      rewrite (bind_Raise _ _ _ ValueError σ); [done|].
      apply (f_equal (λ r, (r, σ))), set_region_misfit; [done|done| |lia].
      unfold py_slice_len, py_clip; simpl. lia.
    - apply broadcast2_Raise in HBG as ->.
      by unfold lift, mbind, M_bind. }
  unfold draw_emoji, for_each. unfold mbind at 1 2, M_bind at 1 2.
  by rewrite H0.
Qed.


Lemma draw_emoji_channel_missing (emoji img : loc) (c : nat) (σ : gmap loc ndarray)
    (e i : ndarray) :
  σ !! emoji = Some e → σ !! img = Some i →
  shape e = (120, 120, 4)%nat → (c < 3)%nat → (nd_c i ≤ c)%nat →
  draw_emoji_channel emoji img c σ = (Raise IndexError, σ).
Proof.
  intros He Hi Hse Hc Hci. injection Hse as Heh Hew Hec.
  pose proof (chan_Ok e c ltac:(lia)) as HEC.
  pose proof (chan_Ok e 3 ltac:(lia)) as HEA.
  set (EC := Arr2 _ _ _) in HEC.
  set (EA := Arr2 _ _ _) in HEA.
  pose proof (broadcast2_same PrimFloat.mul (a2_map u8_to_float EC)
                (a2_map (λ a, u8_to_float a / 255)%float EA)
                (eq_trans Heh (eq_sym Heh)) (eq_trans Hew (eq_sym Hew))) as HFG.
  unfold draw_emoji_channel.
  rewrite (bind_Ok _ _ _ _ _ (deref_Some _ _ _ He)).
  rewrite (bind_Ok _ _ _ _ _ (lift_Ok _ _ _ HEC)).
  rewrite (bind_Ok _ _ _ _ _ (lift_Ok _ _ _ HEA)).
  rewrite (bind_Ok _ _ _ _ _ (lift_Ok _ _ _ HFG)).
  rewrite (bind_Ok _ _ _ _ _ (deref_Some _ _ _ Hi)).
  apply bind_Raise. unfold lift, chan; simpl.
  by destruct (Nat.ltb_spec c (nd_c i)); [lia|].
Qed.

(** X16.  On an image of sufficient size with only two channels
    [draw_emoji] fails part-way: it raises [IndexError] at the third pass,
    after the region of channels 0 and 1 has already been overwritten with
    the blend. *)
Theorem draw_emoji_two_channels (emoji img : loc) (σ : gmap loc ndarray)
    (e i : ndarray) :
  σ !! emoji = Some e → σ !! img = Some i →
  wf_ndarray e → shape e = (120, 120, 4)%nat →
  wf_ndarray i → (470 ≤ nd_h i)%nat → (130 ≤ nd_w i)%nat → nd_c i = 2%nat →
  ∃ i' σ',
    draw_emoji emoji img σ = (Raise IndexError, σ')
    ∧ σ' !! img = Some i'
    ∧ ∀ y x c : nat,
        (350 ≤ y < 470)%nat → (10 ≤ x < 130)%nat → (c < 2)%nat →
        ∃ ec ea ic,
          nd_get e (y - 350) (x - 10) c = Some ec
          ∧ nd_get e (y - 350) (x - 10) 3 = Some ea
          ∧ nd_get i y x c = Some ic
          ∧ nd_get i' y x c = Some (blend ec ea ic).
Proof.
  intros He Hi Hwe Hse Hwi Hh Hw Hc.
  assert (emoji ≠ img) as Hne.
  { intros ->. rewrite He in Hi. injection Hi as ->.
    injection Hse as Heh _ _. lia. }
  destruct (draw_emoji_channel_pass emoji img 0 σ e i)
    as (i0 & Hrun0 & Hw0 & Hs0 & Hk0 & Hb0); [done..|lia|lia|].
  injection Hs0 as Hh0 Hw0' Hc0.
  destruct (draw_emoji_channel_pass emoji img 1 (<[img := i0]> σ) e i0)
    as (i1 & Hrun1 & Hw1 & Hs1 & Hk1 & Hb1);
    [by rewrite lookup_insert_ne|apply lookup_insert_eq|done..|lia|lia|lia|lia|].
  rewrite insert_insert_eq in Hrun1.
  injection Hs1 as Hh1 Hw1' Hc1.
  pose proof (draw_emoji_channel_missing emoji img 2 (<[img := i1]> σ) e i1) as Hrun2.
  rewrite lookup_insert_ne, lookup_insert_eq in Hrun2 by done.
  specialize (Hrun2 He eq_refl Hse ltac:(lia) ltac:(lia)).
  exists i1, (<[img := i1]> σ). split.
  { unfold draw_emoji, for_each.
    apply bind_Raise.
    rewrite (bind_Ok _ _ _ _ _ Hrun0), (bind_Ok _ _ _ _ _ Hrun1).
    by apply bind_Raise. }
  split; [apply lookup_insert_eq|].
  intros y x c Hy Hx Hcc.
  destruct c as [|[|]]; [| |lia].
  - destruct (Hb0 y x Hy Hx) as (ec & ea & ic & ? & ? & ? & ?).
    exists ec, ea, ic. by rewrite Hk1 by lia.
  - destruct (Hb1 y x Hy Hx) as (ec & ea & ic & ? & ? & Hic & ?).
    exists ec, ea, ic. by rewrite Hk0 in Hic by lia.
Qed.

(** ** Loading: a decoder that returns nothing *)

(** X17.  When the decoder returns [None] instead of an image,
    [load_image_path] raises [InvalidImage] in mode ["rgb"] (the validity
    check of [convert_to_rgb] rejects it) and returns [None] without any
    exception in every other mode. *)
Theorem load_image_path_none (img_path mode : string) :
  cv2_imread img_path = Ok None →
  load_image_path img_path mode
  = if String.eqb mode "rgb" then Raise InvalidImage else Ok None.
Proof.
  intros Hread. unfold load_image_path, try_except. rewrite Hread; simpl.
  by destruct (String.eqb mode "rgb").
Qed.

(** ** Labelled bounding box: what is left alone *)


End Media.

(** * Instances

    The theorems above, applied to concrete arrays and stores, with the
    stand-ins for the external libraries. *)

Lemma invalid_image_raised_empty :
  nd_size (NdArray 0 0 3 []) = 0%nat
  ∧ convert_to_rgb (Some (NdArray 0 0 3 [])) = Raise InvalidImage.
Proof.
  split; [reflexivity|].
  apply (proj2 (proj2 invalid_image_raised) (NdArray 0 0 3 [])). reflexivity.
Defined.

Lemma sample_image_wf : wf_ndarray sample_image.
Proof. split; [reflexivity|]. repeat constructor. Qed.

Lemma get_facial_ROI_shape_sample :
  ∃ roi,
    get_facial_ROI (Some sample_image) (Some [1; 0; 2; 1]) = Ok roi
    ∧ shape roi = (1, 1, 3)%nat
    ∧ nd_get roi 0 0 2 = Some 60.
Proof.
  destruct (get_facial_ROI_shape sample_image 1 0 2 1)
    as (roi & Hroi & Hshape & _ & Hget);
    [apply sample_image_wf | simpl; lia..|].
  exists roi. split; [exact Hroi|]. split; [exact Hshape|].
  rewrite (Hget 0 0 2)%nat by (simpl; lia). reflexivity.
Defined.

Lemma convert_to_rgb_roundtrip_sample :
  ∃ rgb,
    convert_to_rgb (Some sample_image) = Ok rgb
    ∧ nd_get rgb 0 0 0 = Some 30
    ∧ cvtColor_RGB2BGR (Some rgb) = Ok sample_image.
Proof.
  destruct (convert_to_rgb_roundtrip sample_image)
    as (rgb & Hrgb & _ & Hget & Hback);
    [apply sample_image_wf | reflexivity | reflexivity |].
  exists rgb. split; [exact Hrgb|]. split; [|exact Hback].
  rewrite Hget by lia. reflexivity.
Defined.

Lemma load_image_path_sample :
  load_image_path one_file_imread "face.png" "rgb"
  = match convert_to_rgb (Some sample_image) with
    | Ok rgb => Ok (Some rgb)
    | Raise exc => Raise exc
    end
  ∧ load_image_path one_file_imread "face.png" "bgr" = Ok (Some sample_image)
  ∧ load_image_path one_file_imread "huge.png" "rgb" = Raise cv2_error
  ∧ load_image_path one_file_imread "missing.png" "rgb" = Raise InvalidImage
  ∧ load_image_path one_file_imread "missing.png" "bgr" = Ok None.
Proof.
  split.
  { apply (proj1 (load_image_path_spec one_file_imread "face.png" "rgb"));
      reflexivity. }
  split.
  { apply (proj1 (proj2 (load_image_path_spec one_file_imread "face.png" "bgr")));
      [reflexivity|discriminate]. }
  split.
  { apply (proj1 (proj2 (proj2
             (load_image_path_spec one_file_imread "huge.png" "rgb")))).
    reflexivity. }
  split.
  { apply (proj2 (proj2 (proj2
             (load_image_path_spec one_file_imread "missing.png" "rgb")))).
    reflexivity. }
  apply (proj2 (proj2 (proj2
           (load_image_path_spec one_file_imread "missing.png" "bgr")))).
  reflexivity.
Defined.

(** C8, as stated, fails on a file that cannot be read.  The decoder raises
    nothing and returns [None]; in mode ["rgb"] the caller gets the
    exception [InvalidImage], which is not what the decoder reported. *)
Lemma load_image_path_unreadable_file :
  one_file_imread "missing.png" = Ok None
  ∧ load_image_path one_file_imread "missing.png" "rgb" = Raise InvalidImage
  ∧ load_image_path one_file_imread "missing.png" "rgb"
    ≠ one_file_imread "missing.png".
Proof. by vm_compute. Qed.

(** C9, as stated, fails on an image with an alpha channel.  The 1 x 1
    image of four channels is valid; [convert_to_rgb] keeps three of its
    channels, and the inverse conversion returns those three, not the
    image. *)
Lemma convert_to_rgb_roundtrip_drops_alpha :
  is_valid_img (Some (NdArray 1 1 4 [[[10; 20; 30; 40]]])) = true
  ∧ convert_to_rgb (Some (NdArray 1 1 4 [[[10; 20; 30; 40]]]))
    = Ok (NdArray 1 1 3 [[[30; 20; 10]]])
  ∧ cvtColor_RGB2BGR (Some (NdArray 1 1 3 [[[30; 20; 10]]]))
    = Ok (NdArray 1 1 3 [[[10; 20; 30]]])
  ∧ cvtColor_RGB2BGR (Some (NdArray 1 1 3 [[[30; 20; 10]]]))
    ≠ Ok (NdArray 1 1 4 [[[10; 20; 30; 40]]]).
Proof. by vm_compute. Qed.

Lemma draw_emoji_blend_opaque_sample :
  let emoji := np_full 120 120 [7; 8; 9; 255] in
  let image := np_full 470 130 [1; 2; 3] in
  let σ : gmap loc ndarray := <[0%nat := emoji]> {[1%nat := image]} in
  ∃ out σ',
    draw_emoji 0%nat 1%nat σ = (Ok 1%nat, σ')
    ∧ σ' !! 1%nat = Some out
    ∧ nd_get out 350 10 0 = Some 7
    ∧ nd_get out 469 129 2 = Some 9.
Proof.
  intros emoji image σ.
  destruct (draw_emoji_blend 0%nat 1%nat σ emoji image)
    as (out & σ' & Hrun & Hout & _ & Hpx).
  - apply lookup_insert_eq.
  - unfold σ. rewrite lookup_insert_ne by lia. apply lookup_singleton_eq.
  - apply np_full_wf.
  - apply np_full_uint8. unfold is_u8. repeat constructor; lia.
  - reflexivity.
  - apply np_full_wf.
  - apply np_full_uint8. unfold is_u8. repeat constructor; lia.
  - simpl; lia.
  - simpl; lia.
  - simpl; lia.
  - exists out, σ'. split; [exact Hrun|]. split; [exact Hout|]. split.
    + destruct (Hpx 350 10 0)%nat as (ec & ea & ic & Hec & Hea & _ & _ & Hopaque & _);
        [lia..|].
      unfold emoji in Hec, Hea. rewrite np_full_get in Hec, Hea by lia.
      injection Hec as <-. injection Hea as <-. by apply Hopaque.
    + destruct (Hpx 469 129 2)%nat as (ec & ea & ic & Hec & Hea & _ & _ & Hopaque & _);
        [lia..|].
      unfold emoji in Hec, Hea. rewrite np_full_get in Hec, Hea by lia.
      injection Hec as <-. injection Hea as <-. by apply Hopaque.
Defined.

Lemma annotate_warning_input_unchanged_sample :
  let σ : gmap loc ndarray := {[0%nat := sample_image]} in
  ∃ r σ',
    annotate_warning ndarray plain_fromarray no_text id "Two faces" 0%nat σ = (r, σ')
    ∧ σ' !! 0%nat = Some sample_image.
Proof.
  intros σ.
  destruct (annotate_warning_input_unchanged ndarray plain_fromarray no_text id
              "Two faces" 0%nat σ sample_image)
    as (r & σ' & Hrun & Hkept & _).
  - apply lookup_singleton_eq.
  - exists r, σ'. split; [exact Hrun|exact Hkept].
Defined.

Lemma annotate_emotion_stats_bars_sample :
  let image := np_full 60 200 [0; 0; 0] in
  let σ : gmap loc ndarray := {[0%nat := image]} in
  (∃ r σ',
     annotate_emotion_stats no_stroke ndarray plain_fromarray no_text id
       [("happy", 80); ("sad", 20)]%string 0%nat σ = (r, σ')
     ∧ σ' !! 0%nat
       = Some (fill_rect (fill_rect image (100, 20) (180, 38) [255; 0; 0])
                         (100, 40) (120, 58) [255; 0; 0]))
  ∧ (∃ r σ' a',
       annotate_emotion_stats no_stroke ndarray plain_fromarray no_text id
         [("happy", 80); ("sad", 20)]%string 0%nat σ = (r, σ')
       ∧ σ' !! 0%nat = Some a'
       ∧ nd_get a' 58 120 0 = Some 255).
Proof.
  intros image σ.
  pose proof (annotate_emotion_stats_bars no_stroke ndarray plain_fromarray no_text id)
    as [Hscenario Hgeneral].
  split.
  - apply Hscenario; [apply lookup_singleton_eq|simpl; lia].
  - destruct (Hgeneral [("happy", 80); ("sad", 20)]%string 0%nat σ image
                1%nat "sad"%string 20)
      as (_ & r & σ' & a' & Hrun & Ha' & _ & Hpx).
    + apply lookup_singleton_eq.
    + simpl; lia.
    + reflexivity.
    + reflexivity.
    + exists r, σ', a'. split; [exact Hrun|]. split; [exact Ha'|].
      apply (Hpx 58 120 0)%nat; [lia|lia|].
      unfold image. rewrite np_full_get by lia. by eexists.
Defined.

Lemma annotate_emotion_stats_mutates_input_sample :
  let image := np_full 21 101 [0; 0; 0] in
  let σ : gmap loc ndarray := {[0%nat := image]} in
  ∃ r σ' after,
    annotate_emotion_stats no_stroke ndarray plain_fromarray no_text id
      [("happy", 80)]%string 0%nat σ = (r, σ')
    ∧ σ' !! 0%nat = Some after
    ∧ nd_get image 20 100 0 = Some 0
    ∧ nd_get after 20 100 0 = Some 255.
Proof.
  intros image σ.
  destruct (annotate_emotion_stats_mutates_input no_stroke ndarray plain_fromarray
              no_text id [("happy", 80)]%string 0%nat σ image)
    as (r & σ' & Hrun & Hafter & Hpx & _).
  - apply lookup_singleton_eq.
  - simpl; lia.
  - eexists r, σ', _. split; [exact Hrun|]. split; [exact Hafter|].
    split; [unfold image; by rewrite np_full_get by lia|].
    apply (Hpx 0%nat "happy"%string 80 20%nat 100%nat 0%nat); [reflexivity..|].
    unfold image. rewrite np_full_get by lia. by eexists.
Defined.

Lemma no_stroke_shape (a : ndarray) (pt1 pt2 : Z * Z) (color : list Z) (thickness : Z)
    (a' : ndarray) :
  no_stroke a pt1 pt2 color thickness = Ok a' → shape a' = shape a.
Proof. by intros [= ->]. Qed.

Lemma draw_bounding_box_annotation_sample :
  let image := np_full 60 60 [0; 0; 0] in
  let σ : gmap loc ndarray := {[0%nat := image]} in
  ∃ r σ' boxed,
    draw_bounding_box_annotation no_stroke ndarray plain_fromarray no_text id
      0%nat "happy" [10; 10; 30; 30] [84; 247; 131] σ = (r, σ')
    ∧ σ' !! 0%nat = Some boxed
    ∧ nd_get boxed 50 30 1 = Some 247.
Proof.
  intros image σ.
  destruct (draw_bounding_box_annotation_spec no_stroke no_stroke_shape ndarray
              plain_fromarray no_text id 0%nat "happy" 10 10 30 30 [84; 247; 131]
              σ image image)
    as (r & σ' & Hrun & Hboxed & Hstrip & _).
  - apply lookup_singleton_eq.
  - simpl; lia.
  - reflexivity.
  - eexists r, σ', _. split; [exact Hrun|]. split; [exact Hboxed|].
    apply (Hstrip 50 30 1)%nat; [lia|lia|].
    unfold image. rewrite np_full_get by lia. by eexists.
Defined.

(** ** Instances of the further properties *)

Lemma get_facial_ROI_bbox_length_sample :
  get_facial_ROI (Some sample_image) (Some [0; 0; 1]) = Raise IndexError
  ∧ ∃ x1 y1 x2 y2 rest,
      [0; 0; 1; 1; 9] = x1 :: y1 :: x2 :: y2 :: rest
      ∧ get_facial_ROI (Some sample_image) (Some [0; 0; 1; 1; 9])
        = Ok (nd_slice sample_image y1 y2 x1 x2).
Proof.
  split.
  - apply (proj1 (get_facial_ROI_bbox_length sample_image [0; 0; 1])). simpl; lia.
  - apply (proj2 (get_facial_ROI_bbox_length sample_image [0; 0; 1; 1; 9])).
    simpl; lia.
Defined.

Lemma get_facial_ROI_within_image_sample :
  wf_ndarray (nd_slice sample_image (-5) 7 1 40)
  ∧ (nd_h (nd_slice sample_image (-5) 7 1 40) ≤ 1)%nat
  ∧ (nd_w (nd_slice sample_image (-5) 7 1 40) ≤ 2)%nat
  ∧ nd_c (nd_slice sample_image (-5) 7 1 40) = 3%nat.
Proof.
  apply (get_facial_ROI_within_image sample_image [1; -5; 40; 7]).
  - apply sample_image_wf.
  - reflexivity.
Defined.

Lemma get_facial_ROI_inverted_box_sample :
  ∃ roi,
    get_facial_ROI (Some sample_image) (Some [2; 0; 1; 1]) = Ok roi
    ∧ nd_size roi = 0%nat.
Proof. apply get_facial_ROI_inverted_box. left. lia. Defined.

Lemma sample_grid_wf : wf_ndarray sample_grid.
Proof. split; [reflexivity|]. repeat constructor. Qed.

Lemma get_facial_ROI_negative_coordinates_sample :
  get_facial_ROI (Some sample_grid) (Some [-3; -2; -1; -1])
  = get_facial_ROI (Some sample_grid) (Some [1; 1; 3; 2])
  ∧ get_facial_ROI (Some sample_grid) (Some [-3; -2; -1; -1])
    = Ok (NdArray 1 2 1 [[[22]; [23]]]).
Proof.
  assert (get_facial_ROI (Some sample_grid) (Some [-3; -2; -1; -1])
          = get_facial_ROI (Some sample_grid) (Some [1; 1; 3; 2])) as Hwrap.
  { apply (get_facial_ROI_negative_coordinates sample_grid 1 1 3 2);
      [apply sample_grid_wf | simpl; lia..]. }
  split; [exact Hwrap|]. rewrite Hwrap. reflexivity.
Defined.

Lemma get_facial_ROI_nested_sample :
  get_facial_ROI (Some sample_grid) (Some [1; 1; 4; 3])
  = Ok (NdArray 2 3 1 [[[22]; [23]; [24]]; [[32]; [33]; [34]]])
  ∧ get_facial_ROI (Some (NdArray 2 3 1 [[[22]; [23]; [24]]; [[32]; [33]; [34]]]))
      (Some [1; 0; 3; 1])
    = get_facial_ROI (Some sample_grid) (Some [2; 1; 4; 2])
  ∧ get_facial_ROI (Some sample_grid) (Some [2; 1; 4; 2])
    = Ok (NdArray 1 2 1 [[[23]; [24]]]).
Proof.
  split; [reflexivity|]. split; [|reflexivity].
  apply (get_facial_ROI_nested sample_grid _ 1 1 4 3 1 0 3 1);
    [apply sample_grid_wf | simpl; lia.. | reflexivity].
Defined.

Lemma convert_to_rgb_twice_sample :
  ∃ rgb,
    convert_to_rgb (Some sample_image) = Ok rgb
    ∧ convert_to_rgb (Some rgb) = Ok sample_image.
Proof.
  apply convert_to_rgb_twice; [apply sample_image_wf | reflexivity | reflexivity].
Defined.

Lemma convert_to_dlib_rectangle_length_sample :
  convert_to_dlib_rectangle [3; 4; 5] = Raise IndexError
  ∧ (4 ≤ length [3; 4; 50; 60; 7])%nat
  ∧ [3; 4; 50; 60; 7] !! 2%nat = Some (rect_right (rectangle_ltrb 3 4 50 60)).
Proof.
  split.
  - apply (proj1 (convert_to_dlib_rectangle_length [3; 4; 5])). simpl; lia.
  - destruct (proj2 (convert_to_dlib_rectangle_length [3; 4; 50; 60; 7])
                (rectangle_ltrb 3 4 50 60) eq_refl) as (Hlen & _ & _ & Hright & _).
    split; [exact Hlen|exact Hright].
Defined.

Lemma load_image_path_none_sample :
  load_image_path one_file_imread "missing.png" "rgb" = Raise InvalidImage
  ∧ load_image_path one_file_imread "missing.png" "gray" = Ok None.
Proof.
  split.
  - apply (load_image_path_none one_file_imread "missing.png" "rgb"). reflexivity.
  - apply (load_image_path_none one_file_imread "missing.png" "gray"). reflexivity.
Defined.

Lemma draw_bounding_box_needs_four_sample :
  let σ : gmap loc ndarray := {[0%nat := sample_image]} in
  draw_bounding_box no_stroke 0%nat [0; 0; 1; 1; 9] [0; 255; 0] σ = (Raise ValueError, σ)
  ∧ draw_bounding_box_annotation no_stroke ndarray plain_fromarray no_text id
      0%nat "happy" [0; 0; 1; 1; 9] [0; 255; 0] σ = (Raise ValueError, σ).
Proof.
  intros σ.
  apply (draw_bounding_box_needs_four no_stroke ndarray plain_fromarray no_text id).
  simpl; lia.
Defined.



Lemma annotate_emotion_stats_outside_bars_sample :
  let image := np_full 60 200 [9; 9; 9] in
  let σ : gmap loc ndarray := {[0%nat := image]} in
  let res := annotate_emotion_stats no_stroke ndarray plain_fromarray no_text id
               [("happy", 80); ("sad", 20)]%string 0%nat σ in
  ∃ a', res.2 !! 0%nat = Some a'
        ∧ nd_get a' 39 120 0 = Some 9 ∧ nd_get a' 25 99 0 = Some 9.
Proof.
  intros image σ res.
  destruct (annotate_emotion_stats_outside_bars no_stroke ndarray plain_fromarray
              no_text id [("happy", 80); ("sad", 20)]%string 0%nat σ res.2 image res.1)
    as (a' & Ha' & Hout).
  - apply lookup_singleton_eq.
  - simpl; lia.
  - apply surjective_pairing.
  - exists a'. split; [exact Ha'|]. split.
    + rewrite Hout; [unfold image; by rewrite np_full_get by lia|].
      right. left. reflexivity.
    + rewrite Hout; [unfold image; by rewrite np_full_get by lia|].
      right. right. right. split; [lia|]. repeat constructor; simpl; lia.
Defined.

Lemma annotate_emotion_stats_twice_sample :
  let image := np_full 21 101 [0; 0; 0] in
  let σ : gmap loc ndarray := {[0%nat := image]} in
  let res1 := annotate_emotion_stats no_stroke ndarray plain_fromarray no_text id
                [("happy", 80)]%string 0%nat σ in
  let res2 := annotate_emotion_stats no_stroke ndarray plain_fromarray no_text id
                [("happy", 80)]%string 0%nat res1.2 in
  ∃ a1 a2,
    res1.2 !! 0%nat = Some a1 ∧ res2.2 !! 0%nat = Some a2
    ∧ shape a2 = shape a1
    ∧ ∀ y x k : nat, nd_get a2 y x k = nd_get a1 y x k.
Proof.
  intros image σ res1 res2.
  apply (annotate_emotion_stats_twice no_stroke ndarray plain_fromarray no_text id
           [("happy", 80)]%string 0%nat σ res1.2 res2.2 image res1.1 res2.1).
  - apply lookup_singleton_eq.
  - simpl; lia.
  - apply surjective_pairing.
  - apply surjective_pairing.
Defined.

Lemma annotate_emotion_stats_empty_sample :
  let σ : gmap loc ndarray := {[0%nat := sample_image]} in
  ∃ r σ',
    annotate_emotion_stats no_stroke ndarray plain_fromarray no_text id [] 0%nat σ
    = (r, σ')
    ∧ σ' !! 0%nat = Some sample_image.
Proof.
  intros σ.
  destruct (annotate_emotion_stats_empty no_stroke ndarray plain_fromarray no_text id
              0%nat σ sample_image) as (r & σ' & Hrun & Hkeep & _).
  - apply lookup_singleton_eq.
  - exists r, σ'. split; [exact Hrun|]. apply Hkeep. apply lookup_singleton_eq.
Defined.


Lemma draw_emoji_no_alpha_sample :
  let σ : gmap loc ndarray := <[0%nat := sample_image]> {[1%nat := np_full 470 130 [1; 2; 3]]} in
  draw_emoji 0%nat 1%nat σ = (Raise IndexError, σ).
Proof.
  intros σ. apply (draw_emoji_no_alpha 0%nat 1%nat σ sample_image).
  - apply lookup_insert_eq.
  - simpl; lia.
Defined.

Lemma draw_emoji_small_image_sample :
  let emoji := np_full 120 120 [7; 8; 9; 255] in
  let σ : gmap loc ndarray := <[0%nat := emoji]> {[1%nat := np_full 400 130 [1; 2; 3]]} in
  draw_emoji 0%nat 1%nat σ = (Raise ValueError, σ).
Proof.
  intros emoji σ.
  apply (draw_emoji_small_image 0%nat 1%nat σ emoji (np_full 400 130 [1; 2; 3])).
  - apply lookup_insert_eq.
  - unfold σ. rewrite lookup_insert_ne by lia. apply lookup_singleton_eq.
  - reflexivity.
  - simpl; lia.
  - left. simpl; lia.
Defined.

Lemma draw_emoji_two_channels_sample :
  let emoji := np_full 120 120 [7; 8; 9; 255] in
  let image := np_full 470 130 [1; 2] in
  let σ : gmap loc ndarray := <[0%nat := emoji]> {[1%nat := image]} in
  ∃ i' σ',
    draw_emoji 0%nat 1%nat σ = (Raise IndexError, σ')
    ∧ σ' !! 1%nat = Some i'
    ∧ nd_get i' 350 10 1 = Some (blend 8 255 2).
Proof.
  intros emoji image σ.
  destruct (draw_emoji_two_channels 0%nat 1%nat σ emoji image)
    as (i' & σ' & Hrun & Hi' & Hpx).
  - apply lookup_insert_eq.
  - unfold σ. rewrite lookup_insert_ne by lia. apply lookup_singleton_eq.
  - apply np_full_wf.
  - reflexivity.
  - apply np_full_wf.
  - simpl; lia.
  - simpl; lia.
  - reflexivity.
  - exists i', σ'. split; [exact Hrun|]. split; [exact Hi'|].
    destruct (Hpx 350 10 1)%nat as (ec & ea & ic & Hec & Hea & Hic & Hout); [lia..|].
    unfold emoji in Hec, Hea. unfold image in Hic.
    rewrite np_full_get in Hec, Hea, Hic by lia.
    injection Hec as <-. injection Hea as <-. injection Hic as <-. exact Hout.
Defined.
